(** * PDAL stage/iterator pipeline and the pgpointcloud writer

    A shallow embedding of the pgpointcloud [Writer] (schema packing, point
    data packing, catalog registration, the transactional bracket) together
    with the iterator and drive-loop contracts it plugs into.

    Unsigned machine integers ([boost::uint32_t], [boost::uint64_t]) are
    carried as [N] with the wrap-around written out; byte arrays are
    [list byte]; C++ exceptions are the left summand of [Result]. *)

From Stdlib Require Import ZArith NArith List String Ascii Lia Bool.
From Stdlib.Strings Require Import Byte.
From stdpp Require Import base option list gmap strings pretty.

Open Scope N_scope.

(** ** Machine integers *)

Definition u32 (n : N) : N := n mod 2 ^ 32.
Definition u64 (n : N) : N := n mod 2 ^ 64.

(** ** Errors *)

Inductive Error : Type :=
  | MissingOptionError (key : string)
  | DuplicateDimensionError
  | NotFoundError (what : string)
  | ReadError
  | WriteError
  | SociDriverError (msg : string)
  | PdalError (msg : string)
  | SociError
  | UndefinedBehaviour.

Definition Result (A : Type) : Type := Error + A.

Definition rbind {A B} (r : Result A) (k : A -> Result B) : Result B :=
  match r with
  | inl e => inl e
  | inr a => k a
  end.

Notation "'letr' x ':=' c 'in' k" := (rbind c (fun x => k))
  (at level 10, x name, c at level 200, k at level 200, only parsing).

(** ** Dimension and Schema *)

Inductive DataType : Type :=
  | Int8 | Uint8 | Int16 | Uint16 | Int32 | Uint32 | Int64 | Uint64
  | Float | Double | Undefined.

(** Modelled from the spec: [Dimension::getDataTypeSize] is declared in the
    interface file but its body is missing; the data model derives the byte
    size from the scalar type (8 to 64 bit integers, 32 and 64 bit floats).
    The trailing [Undefined] marker names no scalar and has no size. *)
Definition getDataTypeSize (t : DataType) : option N :=
  match t with
  | Int8 | Uint8 => Some 1
  | Int16 | Uint16 => Some 2
  | Int32 | Uint32 | Float => Some 4
  | Int64 | Uint64 | Double => Some 8
  | Undefined => None
  end.

(** The attributes of a dimension that the writer touches or that schema
    equality looks at.  Scale and offset are doubles in the source; they are
    only stored and compared here, so they are carried as opaque integers. *)
Record Dimension : Type := mkDimension {
  dim_name : string;
  dim_field : N;
  dim_dataType : DataType;
  dim_byteSize : N;
  dim_ignored : bool;
  dim_position : N;
  dim_parent : N;
  dim_scale : Z;
  dim_offset : Z
}.

Definition nil_uuid : N := 0.

Definition isIgnored (d : Dimension) : bool := dim_ignored d.
Definition getByteSize (d : Dimension) : N := dim_byteSize d.

Definition setPosition (d : Dimension) (p : N) : Dimension :=
  mkDimension (dim_name d) (dim_field d) (dim_dataType d) (dim_byteSize d)
              (dim_ignored d) p (dim_parent d) (dim_scale d) (dim_offset d).

Definition setParent (d : Dimension) (u : N) : Dimension :=
  mkDimension (dim_name d) (dim_field d) (dim_dataType d) (dim_byteSize d)
              (dim_ignored d) (dim_position d) u (dim_scale d) (dim_offset d).

#[global] Instance DataType_eq_dec : EqDecision DataType.
Proof. solve_decision. Defined.

#[global] Instance Dimension_eq_dec : EqDecision Dimension.
Proof. solve_decision. Defined.

(** A Schema is its dimensions in index order. *)
Abbreviation Schema := (list Dimension).

(** Identity of a dimension: semantic field tag paired with scalar type. *)
Definition identity (d : Dimension) : N * DataType :=
  (dim_field d, dim_dataType d).

(** Modelled from the spec: [Schema::appendDimension] is not among the
    sources; adding a dimension fails with [DuplicateDimensionError] when a
    dimension of equal identity is already present, and otherwise places the
    dimension after the existing ones. *)
Definition appendDimension (s : Schema) (d : Dimension) : Result Schema :=
  if decide (identity d ∈ identity <$> s)
  then inl DuplicateDimensionError
  else inr (s ++ [d]).

(** Modelled from the spec: [Schema::getDimension(name)] is not among the
    sources; looking a dimension up fails with [NotFoundError] when absent. *)
Fixpoint getDimension (s : Schema) (name : string) : Result Dimension :=
  match s with
  | [] => inl (NotFoundError name)
  | d :: rest => if decide (dim_name d = name) then inr d
                 else getDimension rest name
  end.

(** Modelled from the spec: [Schema::operator==] is not among the sources;
    two schemas are equal iff their dimension sets are equal, regardless of
    order, every attribute of a dimension (scale and offset included)
    taking part in the comparison. *)
Definition Schema_eqb (a b : Schema) : bool :=
  bool_decide (a ⊆ b) && bool_decide (b ⊆ a).

(** Byte length of one record of an unpacked buffer: every dimension of the
    schema, ignored or not, occupies its bytes there (the packing loop steps
    over each of them). *)
Definition Schema_getByteSize (s : Schema) : N :=
  foldr (fun d acc => getByteSize d + acc) 0 s.

(** *** Writer::PackSchema

    The loop copies each non-ignored dimension, sets its position to the
    running counter, clears its parent and appends it to the clean schema.
    The XML text the source builds from the result before returning is not
    used. *)

Fixpoint PackSchema_loop (idx : list Dimension) (position : N)
    (clean_schema : Schema) : Result Schema :=
  match idx with
  | [] => inr clean_schema
  | di :: rest =>
      if negb (isIgnored di) then
        let d := setParent (setPosition di position) nil_uuid in
        letr clean' := appendDimension clean_schema d in
        PackSchema_loop rest (u32 (position + 1)) clean'
      else PackSchema_loop rest position clean_schema
  end.

Definition PackSchema (schema : Schema) : Result Schema :=
  PackSchema_loop schema 0 [].

(** The dimensions that survive packing, in schema order. *)
Definition packed (s : Schema) : Schema :=
  filter (fun d => isIgnored d = false) s.

(** What [PackSchema] does to a surviving dimension. *)
Definition stamp (position : N) (d : Dimension) : Dimension :=
  setParent (setPosition d position) nil_uuid.

(** A run of surviving dimensions stamped with consecutive positions. *)
Fixpoint stamp_from (position : N) (l : list Dimension) : list Dimension :=
  match l with
  | [] => []
  | d :: rest => stamp position d :: stamp_from (position + 1) rest
  end.

(** The same run with the position counter of the loop, a [uint32_t]. *)
Fixpoint stamp_wrap (position : N) (l : list Dimension) : list Dimension :=
  match l with
  | [] => []
  | d :: rest => stamp position d :: stamp_wrap (u32 (position + 1)) rest
  end.

(** ** PointBuffer *)

Record PointBuffer : Type := mkPointBuffer {
  pb_schema : Schema;
  pb_numPoints : N;
  pb_data : list byte
}.

Definition getNumPoints (b : PointBuffer) : N := pb_numPoints b.
Definition getSchema (b : PointBuffer) : Schema := pb_schema b.

(** Modelled from the spec: [PointBuffer::getData] is not among the
    sources; records are stored contiguously, row-major, so the record of
    point [i] starts [i] record lengths into the data.  The result stands
    for the pointer: the bytes from that address to the end of the array. *)
Definition getData (b : PointBuffer) (i : N) : list byte :=
  drop (N.to_nat (i * Schema_getByteSize (pb_schema b))) (pb_data b).

(** [memcpy(dst + pos, src, n)]: undefined ([None]) when it would read past
    the end of [src] or write past the end of [dst]. *)
Definition memcpy (dst : list byte) (pos : N) (src : list byte) (n : N)
    : option (list byte) :=
  if decide (N.to_nat n <= length src
             ∧ N.to_nat pos + N.to_nat n <= length dst)%nat
  then Some (take (N.to_nat pos) dst ++ take (N.to_nat n) src
             ++ drop (N.to_nat pos + N.to_nat n) dst)
  else None.

(** *** Writer::PackPointData *)

(** First loop: the packed record length, accumulated in a [uint32_t]. *)
Fixpoint packed_byte_size_loop (idx : list Dimension) (schema_byte_size : N)
    : N :=
  match idx with
  | [] => schema_byte_size
  | d :: rest =>
      if negb (isIgnored d)
      then packed_byte_size_loop rest (u32 (schema_byte_size + getByteSize d))
      else packed_byte_size_loop rest schema_byte_size
  end.

(** Inner loop over the dimensions of one record: [data] is the read
    pointer into the buffer, [current_position] the write cursor into the
    output (an offset from [*point_data]). *)
Fixpoint pack_record (idx : list Dimension) (data : list byte)
    (out : list byte) (current_position : N) : option (list byte * N) :=
  match idx with
  | [] => Some (out, current_position)
  | d :: rest =>
      if negb (isIgnored d) then
        match memcpy out current_position data (getByteSize d) with
        | None => None
        | Some out' =>
            pack_record rest (drop (N.to_nat (getByteSize d)) data)
                        out' (current_position + getByteSize d)
        end
      else
        pack_record rest (drop (N.to_nat (getByteSize d)) data)
                    out current_position
  end.

(** Outer loop over the points [i, i + todo). *)
Fixpoint pack_points (buffer : PointBuffer) (idx : list Dimension)
    (todo : nat) (i : N) (out : list byte) (current_position : N)
    : option (list byte * N) :=
  match todo with
  | O => Some (out, current_position)
  | S todo' =>
      match pack_record idx (getData buffer i) out current_position with
      | None => None
      | Some (out', cur') =>
          pack_points buffer idx todo' (i + 1) out' cur'
      end
  end.

(** The three out-parameters: the bytes of [*point_data], [point_data_len]
    and [schema_byte_size].  The fresh array holds indeterminate bytes; it
    is shown here as zeros. *)
Definition PackPointData (buffer : PointBuffer)
    : option (list byte * N * N) :=
  let idx := getSchema buffer in
  let schema_byte_size := packed_byte_size_loop idx 0 in
  let point_data_len := u32 (getNumPoints buffer * schema_byte_size) in
  let point_data := replicate (N.to_nat point_data_len) x00 in
  match pack_points buffer idx (N.to_nat (getNumPoints buffer)) 0
                    point_data 0 with
  | None => None
  | Some (out, _) => Some (out, point_data_len, schema_byte_size)
  end.

(** ** Options *)

(** Modelled from the spec: the options container and its accessors are not
    among the sources.  Options are a string-keyed, typed configuration
    map: each type read through the accessors has its own keyed slot, and
    [OptionType] stands for the template parameter of the accessors. *)
Record Options : Type := mkOptions {
  opt_strings : gmap string string;
  opt_bools : gmap string bool;
  opt_uints : gmap string N
}.

Class OptionType (T : Type) : Type := option_slot : Options -> gmap string T.

#[global] Instance OptionType_string : OptionType string := opt_strings.
#[global] Instance OptionType_bool : OptionType bool := opt_bools.
#[global] Instance OptionType_uint32 : OptionType N := opt_uints.

(** Modelled from the spec: [getValueOrThrow<T>(key)] fails with
    [MissingOptionError] if the key is absent. *)
Definition getValueOrThrow {T} `{OptionType T} (o : Options) (name : string)
    : Result T :=
  match option_slot o !! name with
  | Some v => inr v
  | None => inl (MissingOptionError name)
  end.

(** Modelled from the spec: [getValueOrDefault<T>(key, default)] never
    fails. *)
Definition getValueOrDefault {T} `{OptionType T} (o : Options) (name : string)
    (defaultValue : T) : T :=
  match option_slot o !! name with
  | Some v => v
  | None => defaultValue
  end.

(** ** The database session *)

Inductive CompressionType : Type :=
  | COMPRESSION_NONE | COMPRESSION_GHT | COMPRESSION_DIMENSIONAL.

(** The statements the writer sends, by shape; [sql_text] below gives the
    text the source assembles for each. *)
Inductive Stmt : Type :=
  | SelectCountFormatsWhere (pcid : N)
  | SelectCountFormats
  | SelectFormats
  | SelectMaxPcidPlus1
  | InsertFormat (pcid srid : N) (xml : string)
  | RawSql (sql : string)
  | DropTableIfExists (schema_name table_name : string)
  | SelectTablenames
  | CreateTableStmt (schema_name table_name column_name : string) (pcid : N)
  | CreateIndexStmt (schema_name table_name column_name : string)
  | InsertPatch (table_name hex : string).

Definition qualified (schema_name sep : string) : string :=
  if decide (schema_name = "") then "" else schema_name +:+ sep.

Definition sql_text (st : Stmt) : string :=
  match st with
  | SelectCountFormatsWhere pcid =>
      "SELECT Count(pcid) FROM pointcloud_formats WHERE pcid = " +:+ pretty pcid
  | SelectCountFormats => "SELECT Count(pcid) FROM pointcloud_formats"
  | SelectFormats => "SELECT pcid, schema FROM pointcloud_formats"
  | SelectMaxPcidPlus1 => "SELECT Max(pcid)+1 AS pcid FROM pointcloud_formats"
  | InsertFormat _ _ _ =>
      "INSERT INTO pointcloud_formats (pcid, srid, schema) "
      +:+ "VALUES (:pcid, :srid, :xml)"
  | RawSql sql => sql
  | DropTableIfExists s t => "DROP TABLE IF EXISTS " +:+ qualified s "." +:+ t
  | SelectTablenames => "SELECT tablename FROM pg_tables"
  | CreateTableStmt s t c pcid =>
      "CREATE TABLE " +:+ qualified s "." +:+ t
      +:+ " (id SERIAL PRIMARY KEY, " +:+ c +:+ " PcPatch"
      +:+ (if decide (pcid = 0) then "" else "(" +:+ pretty pcid +:+ ")")
      +:+ ")"
  | CreateIndexStmt s t c =>
      "CREATE INDEX " +:+ qualified s "_" +:+ t +:+ "_pc_gix"
      +:+ " USING GIST (Geometry(" +:+ c +:+ "))"
  | InsertPatch t _ => "INSERT INTO " +:+ t +:+ " (pa) VALUES (:hex)"
  end.

(** What the session has been asked to do, in order. *)
Inductive SessionEvent : Type :=
  | EvBegin
  | EvCommit
  | EvRollback
  | EvStatement (st : Stmt).

Record FormatRow : Type := mkFormatRow {
  fr_pcid : N;
  fr_srid : N;
  fr_schema : string
}.

(** The stored data the writer reads or changes: the [pointcloud_formats]
    catalog, the table names of [pg_tables] and the patches inserted. *)
Record Store : Type := mkStore {
  pointcloud_formats : list FormatRow;
  pg_tables : list string;
  patches : list (string * string)
}.

Record Db : Type := mkDb {
  db_store : Store;
  db_in_transaction : bool;
  db_log : list SessionEvent
}.

(** Everything outside the sources that the writer calls into. *)
Record Env : Type := mkEnv {
  (** [soci::session(postgresql, connection)]: [None] when the session
      opens, otherwise the text of the [soci_error] *)
  env_connect : string -> option string;
  (** byte order of the host ([BOOST_LITTLE_ENDIAN]) *)
  env_little_endian : bool;
  (** [getCompressionType], declared in the writer's header *)
  env_getCompressionType : string -> CompressionType;
  (** [FileUtils::readFileAsString]: empty when there is no such file *)
  env_readFileAsString : string -> string;
  (** [Schema::to_xml] with the compression metadata, and [Schema::from_xml] *)
  env_to_xml : Schema -> string -> string;
  env_from_xml : string -> Schema;
  (** [Utils::binary_to_hex_string] *)
  env_binary_to_hex_string : list byte -> string;
  (** does the backend refuse this statement (raising [soci_error]) *)
  env_rejects : Db -> Stmt -> bool;
  (** what user-supplied SQL does to the stored data *)
  env_raw_sql : string -> Store -> Store
}.

(** Computations against the session: the database state is threaded
    through and survives a raised error. *)
Definition M (A : Type) : Type := Db -> Result A * Db.

Definition ret {A} (a : A) : M A := fun db => (inr a, db).
Definition throw {A} (e : Error) : M A := fun db => (inl e, db).
Definition lift {A} (r : Result A) : M A := fun db => (r, db).

Definition bind {A B} (m : M A) (k : A -> M B) : M B :=
  fun db =>
    match m db with
    | (inl e, db') => (inl e, db')
    | (inr a, db') => k a db'
    end.

Notation "'letm' x ':=' c 'in' k" := (bind c (fun x => k))
  (at level 10, x name, c at level 200, k at level 200, only parsing).
Notation "'letm' ' p ':=' c 'in' k" :=
  (bind c (fun x => match x with p => k end))
  (at level 10, p pattern, c at level 200, k at level 200, only parsing).

Definition log_event (ev : SessionEvent) (db : Db) : Db :=
  mkDb (db_store db) (db_in_transaction db) (db_log db ++ [ev]).

Definition session_begin : M unit :=
  fun db => (inr tt, log_event EvBegin (mkDb (db_store db) true (db_log db))).

Definition session_commit : M unit :=
  fun db => (inr tt, log_event EvCommit (mkDb (db_store db) false (db_log db))).

(** Case-insensitive comparison, as [boost::iequals]. *)
Definition ascii_lower (c : ascii) : ascii :=
  let n := N_of_ascii c in
  if (65 <=? n) && (n <=? 90) then ascii_of_N (n + 32) else c.

Fixpoint string_lower (s : string) : string :=
  match s with
  | EmptyString => EmptyString
  | String c rest => String (ascii_lower c) (string_lower rest)
  end.

Definition iequals (a b : string) : bool :=
  bool_decide (string_lower a = string_lower b).

Section Session.
Context (env : Env).

Definition apply_stmt (st : Stmt) (s : Store) : Store :=
  match st with
  | InsertFormat pcid srid xml =>
      mkStore (pointcloud_formats s ++ [mkFormatRow pcid srid xml])
              (pg_tables s) (patches s)
  | RawSql sql => env_raw_sql env sql s
  | DropTableIfExists _ t =>
      mkStore (pointcloud_formats s)
              (filter (fun n => n <> t) (pg_tables s)) (patches s)
  | CreateTableStmt _ t _ _ =>
      mkStore (pointcloud_formats s) (pg_tables s ++ [t]) (patches s)
  | InsertPatch t hex =>
      mkStore (pointcloud_formats s) (pg_tables s) (patches s ++ [(t, hex)])
  | _ => s
  end.

(** [m_session->once << sql]: refused with [soci_error], or run and
    recorded. *)
Definition once (st : Stmt) : M unit :=
  fun db =>
    if env_rejects env db st then (inl SociError, db)
    else (inr tt,
          log_event (EvStatement st)
            (mkDb (apply_stmt st (db_store db))
                  (db_in_transaction db) (db_log db))).

Definition gets {A} (f : Store -> A) : M A :=
  fun db => (inr (f (db_store db)), db).

(** The value of [Max(pcid)+1]. *)
Definition max_pcid_plus1 (s : Store) : N :=
  foldr N.max 0 (fr_pcid <$> pointcloud_formats s) + 1.

Definition count_pcid (pcid : N) (s : Store) : Z :=
  Z.of_nat (length (filter (fun r => fr_pcid r = pcid)
                           (pointcloud_formats s))).
End Session.

(** ** The pgpointcloud writer *)

Record Writer : Type := mkWriter {
  m_options : Options;
  m_session : bool;
  m_pdal_schema : Schema;
  m_schema_name : string;
  m_table_name : string;
  m_column_name : string;
  m_patch_compression_type : CompressionType;
  m_patch_capacity : N;
  m_srid : N;
  m_pcid : N;
  m_have_postgis : bool;
  m_create_index : bool;
  m_overwrite : bool;
  m_sdo_pc_is_initialized : bool
}.

(** [Writer::Writer(prevStage, options)]. *)
Definition Writer_new (prevStage_schema : Schema) (options : Options) : Writer :=
  mkWriter options false prevStage_schema "" "" "" COMPRESSION_NONE
           400 0 0 false true true false.

Definition set_m_pcid (w : Writer) (pcid : N) : Writer :=
  mkWriter (m_options w) (m_session w) (m_pdal_schema w) (m_schema_name w)
           (m_table_name w) (m_column_name w) (m_patch_compression_type w)
           (m_patch_capacity w) (m_srid w) pcid (m_have_postgis w)
           (m_create_index w) (m_overwrite w) (m_sdo_pc_is_initialized w).

Definition set_m_sdo_pc_is_initialized (w : Writer) (b : bool) : Writer :=
  mkWriter (m_options w) (m_session w) (m_pdal_schema w) (m_schema_name w)
           (m_table_name w) (m_column_name w) (m_patch_compression_type w)
           (m_patch_capacity w) (m_srid w) (m_pcid w) (m_have_postgis w)
           (m_create_index w) (m_overwrite w) b.

(** Hexadecimal text, as [boost::format("%0kx")] prints an unsigned value. *)
Definition hex_digit (n : N) : ascii :=
  ascii_of_N (if n <? 10 then 48 + n else 87 + n).

Fixpoint hex_fixed (digits : nat) (n : N) : string :=
  match digits with
  | O => EmptyString
  | S k => String (hex_digit ((n / 16 ^ N.of_nat k) mod 16)) (hex_fixed k n)
  end.

(** [SWAP_ENDIANNESS] on a 32-bit value. *)
Definition swap32 (n : N) : N :=
  N.lor (N.lor (N.shiftl (N.land n 255) 24)
               (N.shiftl (N.land (N.shiftr n 8) 255) 16))
        (N.lor (N.shiftl (N.land (N.shiftr n 16) 255) 8)
               (N.land (N.shiftr n 24) 255)).

Definition compression_code (c : CompressionType) : N :=
  match c with
  | COMPRESSION_NONE => 0
  | COMPRESSION_GHT => 1
  | COMPRESSION_DIMENSIONAL => 2
  end.

Section PgWriter.
Context (env : Env).

(** *** Writer::initialize

    The base-class [pdal::Writer::initialize()] called first is not among
    the sources and reads none of the options below. *)
Definition initialize (w : Writer) : Result Writer :=
  let options := m_options w in
  letr table_name := getValueOrThrow options "table" in
  let column_name := getValueOrDefault options "column" "pa" in
  let schema_name := getValueOrDefault options "schema" "" in
  let compression_str :=
    getValueOrDefault options "compression" "dimensional" in
  let patch_compression_type := env_getCompressionType env compression_str in
  let connection := getValueOrDefault options "connection" "" in
  if decide (String.length connection = 0%nat) then
    inl (SociDriverError
           "unable to connect to database, no connection string was given!")
  else
    match env_connect env connection with
    | Some what =>
        inl (PdalError ("Unable to connect '" +:+ connection
                        +:+ "' with error '" +:+ what +:+ "'"))
    | None =>
        let overwrite := getValueOrDefault options "overwrite" true in
        let patch_capacity := getValueOrDefault options "capacity" 400 in
        let srid := getValueOrDefault options "srid" 4326 in
        let pcid := getValueOrDefault options "pcid" 0 in
        inr (mkWriter options true (m_pdal_schema w) schema_name table_name
                      column_name patch_compression_type patch_capacity
                      srid pcid (m_have_postgis w) (m_create_index w)
                      overwrite (m_sdo_pc_is_initialized w))
    end.

(** Pre- and post-SQL: the option is a file to read or, when no such file
    yields text, the statement itself. *)
Definition run_user_sql (option_name : string) (w : Writer) : M unit :=
  let user_sql := getValueOrDefault (m_options w) option_name "" in
  if decide (String.length user_sql = 0%nat) then ret tt
  else
    let sql := env_readFileAsString env user_sql in
    let sql := if decide (String.length sql = 0%nat) then user_sql else sql in
    once env (RawSql sql).

(** *** Writer::CheckTableExists *)
Definition CheckTableExists (name : string) : M bool :=
  letm _ := once env SelectTablenames in
  gets (fun s => existsb (fun row => iequals row name) (pg_tables s)).

Definition DeleteTable (schema_name table_name : string) : M unit :=
  once env (DropTableIfExists schema_name table_name).

Definition CreateTable (schema_name table_name column_name : string)
    (pcid : N) : M unit :=
  once env (CreateTableStmt schema_name table_name column_name pcid).

Definition CreateIndex (schema_name table_name column_name : string)
    : M unit :=
  once env (CreateIndexStmt schema_name table_name column_name).

(** *** Writer::SetupSchema *)

(** The loop over the fetched rows: the first stored schema equal to the
    output schema decides. *)
Fixpoint find_schema (rows : list FormatRow) (output_schema : Schema)
    : option N :=
  match rows with
  | [] => None
  | r :: rest =>
      if Schema_eqb (env_from_xml env (fr_schema r)) output_schema
      then Some (u32 (fr_pcid r))
      else find_schema rest output_schema
  end.

Definition compression_text (c : CompressionType) : string :=
  match c with
  | COMPRESSION_DIMENSIONAL => "dimensional"
  | COMPRESSION_GHT => "ght"
  | COMPRESSION_NONE => ""
  end.

Definition SetupSchema (w : Writer) (buffer_schema : Schema) (srid : N)
    : M (N * Writer) :=
  letm output_schema := lift (PackSchema buffer_schema) in
  if negb (m_pcid w =? 0) then
    letm _ := once env (SelectCountFormatsWhere (m_pcid w)) in
    letm schema_count := gets (count_pcid (m_pcid w)) in
    if (schema_count =? 0)%Z then
      throw (PdalError ("requested PCID '" +:+ pretty (m_pcid w)
                        +:+ "' does not exist in POINTCLOUD_FORMATS"))
    else ret (m_pcid w, w)
  else
    letm _ := once env SelectCountFormats in
    letm schema_count :=
      gets (fun s => Z.of_nat (length (pointcloud_formats s))) in
    letm found :=
      (if (0 <? schema_count)%Z then
         letm _ := once env SelectFormats in
         gets (fun s => find_schema (pointcloud_formats s) output_schema)
       else ret None) in
    letm pcid :=
      match found with
      | Some pcid => ret pcid
      | None =>
          letm pcid :=
            (if (schema_count =? 0)%Z then ret 1
             else
               letm _ := once env SelectMaxPcidPlus1 in
               gets (fun s => u32 (max_pcid_plus1 s))) in
          let compression :=
            compression_text (m_patch_compression_type w) in
          let xml := env_to_xml env output_schema compression in
          letm _ := once env (InsertFormat pcid srid xml) in
          ret pcid
      end in
    ret (pcid, set_m_pcid w pcid).

(** *** Writer::writeBegin *)
Definition writeBegin (w : Writer) (targetNumPointsToWrite : N) : M Writer :=
  letm _ := session_begin in
  letm _ := run_user_sql "pre_sql" w in
  letm bHaveTable := CheckTableExists (m_table_name w) in
  letm bHaveTable :=
    (if m_overwrite w && bHaveTable then
       letm _ := DeleteTable (m_schema_name w) (m_table_name w) in
       ret false
     else ret bHaveTable) in
  letm '(pcid, w) := SetupSchema w (m_pdal_schema w) (m_srid w) in
  let w := set_m_pcid w pcid in
  letm _ :=
    (if negb bHaveTable then
       CreateTable (m_schema_name w) (m_table_name w) (m_column_name w)
                   (m_pcid w)
     else ret tt) in
  ret w.

(** *** Writer::writeEnd *)
Definition writeEnd (w : Writer) (actualNumPointsWritten : N) : M unit :=
  letm _ :=
    (if m_create_index w && m_have_postgis w then
       CreateIndex (m_schema_name w) (m_table_name w) (m_column_name w)
     else ret tt) in
  letm _ := run_user_sql "post_sql" w in
  session_commit.

(** *** Writer::writeBufferBegin *)
Definition writeBufferBegin (w : Writer) (data : PointBuffer) : M Writer :=
  if negb (m_sdo_pc_is_initialized w)
  then ret (set_m_sdo_pc_is_initialized w true)
  else ret w.

(** *** Writer::WriteBlock

    A copy outside the arrays in [PackPointData] has no defined outcome;
    it is reported as [UndefinedBehaviour]. *)
Definition WriteBlock (w : Writer) (buffer : PointBuffer) : M bool :=
  letm '(point_data, point_data_length, schema_byte_size) :=
    lift (match PackPointData buffer with
          | Some r => inr r
          | None => inl UndefinedBehaviour
          end) in
  let schema := getSchema buffer in
  letm blockDim := lift (getDimension schema "BlockID") in
  let num_points := u32 (getNumPoints buffer) in
  letm _ :=
    (if m_patch_capacity w <? num_points
     then ret tt (* error here *)
     else ret tt) in
  let block_data := take (N.to_nat point_data_length) point_data in
  let pcid := u32 (m_pcid w) in
  let compression := compression_code COMPRESSION_NONE in
  let options :=
    if env_little_endian env then
      hex_fixed 2 1 +:+ hex_fixed 8 (swap32 pcid)
      +:+ hex_fixed 8 (swap32 compression)
      +:+ hex_fixed 8 (swap32 num_points)
    else
      hex_fixed 2 0 +:+ hex_fixed 8 pcid +:+ hex_fixed 8 compression
      +:+ hex_fixed 8 num_points in
  let hex := options +:+ env_binary_to_hex_string env block_data in
  letm _ := once env (InsertPatch (m_table_name w) hex) in
  ret true.

(** *** Writer::writeBuffer *)
Definition writeBuffer (w : Writer) (buffer : PointBuffer) : M N :=
  let numPoints := getNumPoints buffer in
  letm _ := WriteBlock w buffer in
  ret numPoints.
End PgWriter.

(** ** Stage iterators

    Only the declarations of the iterator classes are among the sources
    ([read], [skip], [naiveSkipImpl], [m_index], [m_chunkSize]); their
    bodies follow the specification. *)

(** One point record. *)
Abbreviation Point := (list byte).

(** The stage behind an iterator: the points it can deliver, in order, and
    whether the underlying source answers a request for [count] points from
    [index] (a stalled or failing source does not). *)
Record DataStage : Type := mkDataStage {
  stage_points : list Point;
  stage_delivers : N -> N -> bool
}.

Definition totalAvailablePoints (s : DataStage) : N :=
  N.of_nat (length (stage_points s)).

Record StageIterator : Type := mkStageIterator {
  m_stage : DataStage;
  m_index : N;
  m_chunkSize : N
}.

Definition getIndex (it : StageIterator) : N := m_index it.
Definition getChunkSize (it : StageIterator) : N := m_chunkSize it.

(** Modelled from the spec: the body of [StageIterator::read] is missing.
    [read(buffer)] fills [buffer] with up to [min(chunkSize,
    buffer.capacity)] points starting at [currentIndex], returns the count
    placed, advances [currentIndex] by that count and leaves the unfilled
    tail untouched; a failing source gives [ReadError] and does not
    advance.  The buffer is its slots; the index is a [uint64_t]. *)
Definition read (it : StageIterator) (buffer : list Point)
    : Result (N * list Point) * StageIterator :=
  let requested := N.min (m_chunkSize it) (N.of_nat (length buffer)) in
  if stage_delivers (m_stage it) (m_index it) requested then
    let placed :=
      take (N.to_nat requested)
           (drop (N.to_nat (m_index it)) (stage_points (m_stage it))) in
    let numRead := N.of_nat (length placed) in
    (inr (numRead, placed ++ drop (length placed) buffer),
     mkStageIterator (m_stage it) (u64 (m_index it + numRead))
                     (m_chunkSize it))
  else (inl ReadError, it).

(** Modelled from the spec: [atEnd()] is true once [currentIndex >=
    totalAvailablePoints]. *)
Definition atEnd (it : StageIterator) : bool :=
  totalAvailablePoints (m_stage it) <=? m_index it.

(** Modelled from the spec: the body of [naiveSkipImpl] is missing; it
    "uses the read() call to advance count points forward", reading chunk
    after chunk into a throwaway buffer until [count] points are passed or a
    read places nothing.  Every round but the last passes at least one
    point, so [count] rounds are enough. *)
Fixpoint naiveSkipImpl (rounds : nat) (it : StageIterator) (count : N)
    (totalNumRead : N) : Result N * StageIterator :=
  match rounds with
  | O => (inr totalNumRead, it)
  | S rounds' =>
      if count =? 0 then (inr totalNumRead, it)
      else
        let thisCount := N.min (m_chunkSize it) count in
        let junk := replicate (N.to_nat thisCount) ([] : Point) in
        match read it junk with
        | (inl e, it') => (inl e, it')
        | (inr (numRead, _), it') =>
            if numRead =? 0 then (inr totalNumRead, it')
            else naiveSkipImpl rounds' it' (count - numRead)
                               (totalNumRead + numRead)
        end
  end.

(** Modelled from the spec: [skip(count)] advances [currentIndex] by up to
    [count] and returns the number skipped; this is the default realisation
    by repeated reads. *)
Definition skip (it : StageIterator) (count : N) : Result N * StageIterator :=
  naiveSkipImpl (N.to_nat count) it count 0.

(** ** The writer drive loop *)

(** The buffer-lifecycle calls a concrete writer implements.  Begin and end
    calls update the writer; a buffer write reports the number of points it
    wrote or fails. *)
Class WriterContract (W : Type) : Type := mkWriterContract {
  wc_writeBegin : W -> N -> W;
  wc_writeBufferBegin : W -> list Point -> W;
  wc_writeBuffer : W -> list Point -> Result N * W;
  wc_writeBufferEnd : W -> list Point -> W;
  wc_writeEnd : W -> N -> W
}.

(** The calls the drive loop makes, in order. *)
Inductive Call : Type :=
  | CallWriteBegin (target : N)
  | CallRead (numRead : N)
  | CallWriteBufferBegin
  | CallWriteBuffer (numWritten : N)
  | CallWriteBufferEnd
  | CallWriteEnd (actual : N).

Record DriveState (W : Type) : Type := mkDriveState {
  ds_writer : W;
  ds_iterator : StageIterator;
  ds_actualWritten : N;
  ds_calls : list Call
}.
Arguments mkDriveState {W}.
Arguments ds_writer {W}.
Arguments ds_iterator {W}.
Arguments ds_actualWritten {W}.
Arguments ds_calls {W}.

Section DriveLoop.
Context {W : Type} `{WriterContract W}.

(** Modelled from the spec: the body of [Writer::write] is missing.  The
    chunk cycle: pull from the iterator, then
    [writeBufferBegin; writeBuffer; writeBufferEnd]; the points written
    are accumulated.  The cycle ends when the iterator places nothing
    (end of stream), when a nonzero target is reached, or with the error
    of a failed read or buffer write.  No cycle passes without at least
    one point read, so [rounds] bounds the cycles. *)
Fixpoint write_loop (rounds : nat) (target : N) (st : DriveState W)
    : option Error * DriveState W :=
  match rounds with
  | O => (None, st)
  | S rounds' =>
      if negb (target =? 0) && (target <=? ds_actualWritten st)
      then (None, st)
      else
        let it := ds_iterator st in
        let want :=
          if target =? 0 then m_chunkSize it
          else N.min (m_chunkSize it) (target - ds_actualWritten st) in
        let buffer := replicate (N.to_nat want) ([] : Point) in
        match read it buffer with
        | (inl e, it') =>
            (Some e, mkDriveState (ds_writer st) it' (ds_actualWritten st)
                                  (ds_calls st))
        | (inr (numRead, filled), it') =>
            if numRead =? 0 then
              (None, mkDriveState (ds_writer st) it' (ds_actualWritten st)
                                  (ds_calls st ++ [CallRead 0]))
            else
              let data := take (N.to_nat numRead) filled in
              let w1 := wc_writeBufferBegin (ds_writer st) data in
              match wc_writeBuffer w1 data with
              | (inl e, w2) =>
                  (Some e,
                   mkDriveState w2 it' (ds_actualWritten st)
                     (ds_calls st ++ [CallRead numRead;
                                      CallWriteBufferBegin]))
              | (inr numWritten, w2) =>
                  let w3 := wc_writeBufferEnd w2 data in
                  write_loop rounds' target
                    (mkDriveState w3 it'
                       (u64 (ds_actualWritten st + numWritten))
                       (ds_calls st ++ [CallRead numRead;
                                        CallWriteBufferBegin;
                                        CallWriteBuffer numWritten;
                                        CallWriteBufferEnd]))
              end
        end
  end.

(** Modelled from the spec: [write(targetCount)] calls [writeBegin] once
    before any data flows and [writeEnd] once after the loop terminates,
    also when a read or a buffer write failed; zero as target means
    draining the source. *)
Definition write (w : W) (it : StageIterator) (targetCount : N)
    : Result N * DriveState W :=
  let w0 := wc_writeBegin w targetCount in
  let rounds :=
    S (N.to_nat (totalAvailablePoints (m_stage it) - m_index it)) in
  let '(err, st) :=
    write_loop rounds targetCount
               (mkDriveState w0 it 0 [CallWriteBegin targetCount]) in
  let actual := ds_actualWritten st in
  let st' :=
    mkDriveState (wc_writeEnd (ds_writer st) actual) (ds_iterator st)
                 actual (ds_calls st ++ [CallWriteEnd actual]) in
  match err with
  | Some e => (inl e, st')
  | None => (inr actual, st')
  end.
End DriveLoop.

(** ** Statements of the catalog and session properties *)

(** The stored schema of a catalog row equals the output schema. *)
Definition schema_matches (env : Env) (r : FormatRow) (output_schema : Schema)
    : Prop :=
  Schema_eqb (env_from_xml env (fr_schema r)) output_schema = true.

(** Registration by schema equality: [SetupSchema] returns the id of an
    existing entry with an equal schema and leaves the catalog as it was,
    or, no entry being equal, appends an entry under a fresh id: 1 for an
    empty catalog, else the largest id plus one. *)
Definition registers_by_equality (env : Env) (w : Writer)
    (buffer_schema : Schema) (srid : N) (db : Db) : Prop :=
  exists output_schema pcid w' db',
    PackSchema buffer_schema = inr output_schema
    /\ SetupSchema env w buffer_schema srid db = (inr (pcid, w'), db')
    /\ (((exists r, r ∈ pointcloud_formats (db_store db)
                    /\ schema_matches env r output_schema
                    /\ pcid = fr_pcid r)
         /\ pointcloud_formats (db_store db')
            = pointcloud_formats (db_store db))
        \/ ((forall r, r ∈ pointcloud_formats (db_store db) ->
                       ~ schema_matches env r output_schema)
            /\ pcid = match pointcloud_formats (db_store db) with
                      | [] => 1
                      | _ :: _ => max_pcid_plus1 (db_store db)
                      end
            /\ (forall r, r ∈ pointcloud_formats (db_store db) ->
                          fr_pcid r < pcid)
            /\ pointcloud_formats (db_store db')
               = pointcloud_formats (db_store db)
                 ++ [mkFormatRow pcid srid
                       (env_to_xml env output_schema
                          (compression_text (m_patch_compression_type w)))])).

(** The backend refuses nothing. *)
Definition accepts_all (env : Env) : Prop :=
  forall db st, env_rejects env db st = false.

(** A computation that neither commits nor rolls back: whatever its
    outcome, it only appends events other than commit and rollback and
    leaves the transaction as it found it. *)
Definition quiet {A} (m : M A) : Prop :=
  forall db r db',
    m db = (r, db') ->
    exists evs,
      db_log db' = db_log db ++ evs
      /\ (EvRollback ∉ evs) /\ (EvCommit ∉ evs)
      /\ db_in_transaction db' = db_in_transaction db.

(** A buffer write that returns the full point count of the buffer. *)
Definition writeBuffer_returns_count (env : Env) (w : Writer)
    (buffer : PointBuffer) (db : Db) : Prop :=
  fst (writeBuffer env w buffer db) = inr (getNumPoints buffer).

(** An option is needed when [initialize] cannot succeed without it. *)
Definition needed_option (env : Env) (key : string) : Prop :=
  forall w, opt_strings (m_options w) !! key = None ->
            forall w', initialize env w <> inr w'.

(** Every needed option, when absent, is reported by a
    [MissingOptionError] that names it. *)
Definition missing_option_reported (env : Env) : Prop :=
  forall key w,
    needed_option env key ->
    opt_strings (m_options w) !! key = None ->
    initialize env w = inl (MissingOptionError key).



(** ** Sample data *)

Definition hex_of_bytes (bs : list byte) : string :=
  foldr (fun b acc => hex_fixed 2 (Byte.to_N b) +:+ acc) "" bs.

(** A backend that refuses nothing, with one stored schema text, ["xy"],
    standing for the packed X/Y schema. *)
Definition sample_env : Env :=
  mkEnv (fun _ => None) true
        (fun s => if decide (s = "dimensional") then COMPRESSION_DIMENSIONAL
                  else if decide (s = "ght") then COMPRESSION_GHT
                  else COMPRESSION_NONE)
        (fun _ => "")
        (fun s c => "schema/" +:+ pretty (N.of_nat (length s)) +:+ "/" +:+ c)
        (fun x => if decide (x = "xy")
                  then [ mkDimension "X" 1 Double 8 false 0 nil_uuid 1 0;
                         mkDimension "Y" 2 Double 8 false 1 nil_uuid 1 0 ]
                  else [])
        hex_of_bytes
        (fun _ _ => false)
        (fun _ s => s).

Definition sample_options : Options :=
  mkOptions (<["table" := "patches"]> (<["connection" := "dbname=pc"]> ∅))
            ∅ ∅.

Definition sample_writer (schema : Schema) (pcid : N) : Writer :=
  mkWriter sample_options true schema "" "patches" "pa"
           COMPRESSION_DIMENSIONAL 400 4326 pcid false true true false.

(** A writer whose patches hold a single point. *)
Definition tight_writer (schema : Schema) : Writer :=
  mkWriter sample_options true schema "" "patches" "pa"
           COMPRESSION_DIMENSIONAL 1 4326 1 false true true false.

(** Two six-byte records: a 16-bit intensity and a 32-bit block id. *)
Definition blk_schema : Schema :=
  [ mkDimension "Intensity" 4 Uint16 2 false 0 nil_uuid 1 0;
    mkDimension "BlockID" 512 Int32 4 false 1 nil_uuid 1 0 ].

Definition blk_buffer : PointBuffer :=
  mkPointBuffer blk_schema 2
    [ x11; x12; x07; x00; x00; x00;
      x21; x22; x07; x00; x00; x00 ].

(** A stage of five one-byte points that always answers, and one whose
    source fails on any request reaching past the third point. *)
Definition five_points : list Point := [[x01]; [x02]; [x03]; [x04]; [x05]].

Definition steady_stage : DataStage := mkDataStage five_points (fun _ _ => true).

Definition failing_stage : DataStage :=
  mkDataStage five_points (fun index count => index + count <=? 3).

(** A writer that accepts every buffer and counts the points it was given. *)
Definition counting_writer : WriterContract N :=
  mkWriterContract N
    (fun w _ => w) (fun w _ => w)
    (fun w data => (inr (N.of_nat (length data)), w + N.of_nat (length data)))
    (fun w _ => w) (fun w _ => w).

(** A writer that fails on the buffer that would take it past two points. *)
Definition fragile_writer : WriterContract N :=
  mkWriterContract N
    (fun w _ => w) (fun w _ => w)
    (fun w data =>
       if w + N.of_nat (length data) <=? 2
       then (inr (N.of_nat (length data)), w + N.of_nat (length data))
       else (inl WriteError, w))
    (fun w _ => w) (fun w _ => w).

(** A writer given a table but no connection string. *)
Definition table_only_options : Options :=
  mkOptions (<["table" := "patches"]> ∅) ∅ ∅.


Definition sample_db (rows : list FormatRow) : Db :=
  mkDb (mkStore rows [] []) true [EvBegin].


(** The schema of the packing scenario: two doubles and an ignored
    one-byte classification. *)
Definition xyc_schema : Schema :=
  [ mkDimension "X" 1 Double 8 false 0 nil_uuid 1 0;
    mkDimension "Y" 2 Double 8 false 1 nil_uuid 1 0;
    mkDimension "Classification" 9 Uint8 1 true 2 nil_uuid 1 0 ].

(** Two four-byte records: a 16-bit intensity, an ignored classification
    byte and a return number. *)
Definition icr_schema : Schema :=
  [ mkDimension "Intensity" 4 Uint16 2 false 0 nil_uuid 1 0;
    mkDimension "Classification" 9 Uint8 1 true 1 nil_uuid 1 0;
    mkDimension "ReturnNumber" 5 Uint8 1 false 2 nil_uuid 1 0 ].

Definition icr_buffer : PointBuffer :=
  mkPointBuffer icr_schema 2
    [ x11; x12; xc1; x01;
      x21; x22; xc2; x02 ].

(** ** The rest of the writer *)

(** *** Writer::getDefaultOptions

    The options the writer publishes, each under the type the writer reads
    it with.  No connection string is among them. *)
Definition getDefaultOptions : Options :=
  mkOptions
    (<["table" := ""]>
       (<["schema" := ""]>
          (<["column" := ""]>
             (<["compression" := "dimensional"]>
                (<["pre_sql" := ""]> (<["post_sql" := ""]> ∅))))))
    (<["overwrite" := true]> ∅)
    (<["capacity" := 400]> (<["srid" := 4326]> (<["pcid" := 0]> ∅))).

(** The options of a caller who starts from the published defaults and
    sets values of its own on top of them. *)
Definition over_defaults (o : Options) : Options :=
  mkOptions (opt_strings o ∪ opt_strings getDefaultOptions)
            (opt_bools o ∪ opt_bools getDefaultOptions)
            (opt_uints o ∪ opt_uints getDefaultOptions).

Definition with_options (w : Writer) (o : Options) : Writer :=
  mkWriter o (m_session w) (m_pdal_schema w) (m_schema_name w)
           (m_table_name w) (m_column_name w) (m_patch_compression_type w)
           (m_patch_capacity w) (m_srid w) (m_pcid w) (m_have_postgis w)
           (m_create_index w) (m_overwrite w) (m_sdo_pc_is_initialized w).

Section PgWriterProbes.
Context (env : Env).

(** [try { m_session->once << sql; } catch (soci_error) { return false; }
    return true;] *)
Definition statement_succeeds (sql : string) : M bool :=
  fun db =>
    match once env (RawSql sql) db with
    | (inl _, db') => (inr false, db')
    | (inr _, db') => (inr true, db')
    end.

(** *** Writer::CheckPointCloudExists *)
Definition CheckPointCloudExists : M bool :=
  statement_succeeds "SELECT PC_Version()".

(** *** Writer::CheckPostGISExists *)
Definition CheckPostGISExists : M bool :=
  statement_succeeds "SELECT PostGIS_Version()".
End PgWriterProbes.

(** ** Statements about the events of a computation *)

(** Whatever its outcome, the computation only appends events that
    satisfy [P]. *)
Definition emits_only {A} (P : SessionEvent -> Prop) (m : M A) : Prop :=
  forall db r db',
    m db = (r, db') ->
    exists evs, db_log db' = db_log db ++ evs /\ Forall P evs.

(** The user's pre- or post-SQL is the one statement whose text the writer
    does not assemble.  It is sent only when the option is not empty, and
    its text is that of the file the option names or, when that is empty,
    the option itself. *)
Definition user_statement (env : Env) (option_name : string) (w : Writer)
    (sql : string) : Prop :=
  let user_sql : string := getValueOrDefault (m_options w) option_name "" in
  user_sql <> ""
  /\ sql = (if decide (String.length (env_readFileAsString env user_sql)
                       = 0%nat)
            then user_sql else env_readFileAsString env user_sql).

(** The statements [SetupSchema] sends: queries on the catalog and the
    insert of a new row. *)
Definition catalog_statement (st : Stmt) : Prop :=
  match st with
  | SelectCountFormatsWhere _ | SelectCountFormats | SelectFormats
  | SelectMaxPcidPlus1 | InsertFormat _ _ _ => True
  | _ => False
  end.

(** What [writeBegin] may ask of the session: user SQL only as the
    [pre_sql] option gives it, a drop only of the writer's own table and
    only when overwriting is on, and neither an index, a patch, a commit
    nor a rollback. *)
Definition writeBegin_event (env : Env) (w : Writer) (ev : SessionEvent)
    : Prop :=
  match ev with
  | EvStatement (RawSql sql) => user_statement env "pre_sql" w sql
  | EvStatement (DropTableIfExists s t) =>
      m_overwrite w = true /\ s = m_schema_name w /\ t = m_table_name w
  | EvStatement (CreateIndexStmt _ _ _) | EvStatement (InsertPatch _ _) => False
  | EvCommit | EvRollback => False
  | _ => True
  end.

(** What [writeEnd] may ask of the session when the index is not created:
    user SQL as the [post_sql] option gives it, and the commit. *)
Definition writeEnd_event (env : Env) (w : Writer) (ev : SessionEvent)
    : Prop :=
  match ev with
  | EvStatement (RawSql sql) => user_statement env "post_sql" w sql
  | EvCommit => True
  | _ => False
  end.

(** Reading back the XML written for a schema gives an equal schema. *)
Definition xml_round_trip (env : Env) (s : Schema) : Prop :=
  forall compression,
    Schema_eqb (env_from_xml env (env_to_xml env s compression)) s = true.

(** The header of a patch: byte order, pcid, compression, point count. *)
Definition patch_header (little_endian : bool) (pcid num_points : N) : string :=
  if little_endian then
    hex_fixed 2 1 +:+ hex_fixed 8 (swap32 pcid)
    +:+ hex_fixed 8 (swap32 (compression_code COMPRESSION_NONE))
    +:+ hex_fixed 8 (swap32 num_points)
  else
    hex_fixed 2 0 +:+ hex_fixed 8 pcid
    +:+ hex_fixed 8 (compression_code COMPRESSION_NONE)
    +:+ hex_fixed 8 num_points.

(** A dimension of 4096 bytes and a buffer said to hold 2^20 points of it:
    the packed length is 2^32. *)
Definition blob_schema : Schema :=
  [ mkDimension "Blob" 512 Undefined 4096 false 0 nil_uuid 1 0 ].

Definition blob_buffer : PointBuffer := mkPointBuffer blob_schema 1048576 [].

(** Two dimensions of one identity, the first of them ignored. *)
Definition retyped_schema : Schema :=
  [ mkDimension "X" 1 Int32 4 true 0 nil_uuid 1 0;
    mkDimension "X" 1 Int32 4 false 1 7 100 0;
    mkDimension "Y" 2 Int32 4 false 2 nil_uuid 100 0 ].

(** A backend whose stored schema texts are read back as the packed X/Y
    schema, whatever they are. *)
Definition faithful_env : Env :=
  mkEnv (fun _ => None) true (fun _ => COMPRESSION_NONE) (fun _ => "")
        (fun _ _ => "xy")
        (fun _ => [ mkDimension "X" 1 Double 8 false 0 nil_uuid 1 0;
                    mkDimension "Y" 2 Double 8 false 1 nil_uuid 1 0 ])
        hex_of_bytes (fun _ _ => false) (fun _ s => s).



(** Three 32-bit coordinates, and a buffer of 357913942 such points: twelve
    bytes a point, 4294967304 bytes in all, eight more than 2^32. *)
Definition xyz32_schema : Schema :=
  [ mkDimension "X" 1 Int32 4 false 0 nil_uuid 1 0;
    mkDimension "Y" 2 Int32 4 false 1 nil_uuid 1 0;
    mkDimension "Z" 3 Int32 4 false 2 nil_uuid 1 0 ].

Definition xyz32_buffer (data : list byte) : PointBuffer :=
  mkPointBuffer xyz32_schema 357913942 data.

(** Options that carry user SQL: a drop of another table before the
    write, an index after it. *)
Definition user_sql_options : Options :=
  mkOptions (<["table" := "patches"]>
               (<["connection" := "dbname=pc"]>
                  (<["pre_sql" := "DROP TABLE other_table"]>
                     (<["post_sql" := "CREATE INDEX other_gix ON other (pa)"]>
                        ∅))))
            ∅ ∅.

Definition user_sql_writer : Writer :=
  mkWriter user_sql_options true xyc_schema "" "patches" "pa"
           COMPRESSION_DIMENSIONAL 400 4326 0 false true false false.

(** * Properties *)

(** ** Sums of byte sizes *)

Lemma Schema_getByteSize_cons d s :
  Schema_getByteSize (d :: s) = getByteSize d + Schema_getByteSize s.
Proof. reflexivity. Qed.

Lemma Schema_getByteSize_app s t :
  Schema_getByteSize (s ++ t) = Schema_getByteSize s + Schema_getByteSize t.
Proof.
  induction s as [|d s IH]; [reflexivity|].
  change ((d :: s) ++ t) with (d :: (s ++ t)).
  rewrite !Schema_getByteSize_cons, IH. lia.
Qed.

Lemma packed_cons_keep d s :
  isIgnored d = false -> packed (d :: s) = d :: packed s.
Proof. intros H. unfold packed. by rewrite filter_cons_True. Qed.

Lemma packed_cons_drop d s :
  isIgnored d = true -> packed (d :: s) = packed s.
Proof.
  intros H. unfold packed. rewrite filter_cons_False; [done|].
  rewrite H. discriminate.
Qed.

Lemma packed_app s t : packed (s ++ t) = packed s ++ packed t.
Proof. apply filter_app. Qed.

(** A dimension whose byte size is the size of its scalar type occupies
    between one and eight bytes. *)
Lemma typed_size_positive (d : Dimension) :
  getDataTypeSize (dim_dataType d) = Some (getByteSize d) ->
  0 < getByteSize d <= 8.
Proof.
  destruct (dim_dataType d); simpl; intros [= <-]; lia.
Qed.

(** A surviving dimension lies wholly inside the packed record. *)
Lemma packed_prefix_fits (s : Schema) (i : nat) d :
  s !! i = Some d -> isIgnored d = false ->
  Schema_getByteSize (packed (take i s)) + getByteSize d
    <= Schema_getByteSize (packed s).
Proof.
  intros Hi Hd.
  rewrite <- (take_drop_middle s i d Hi) at 2.
  rewrite packed_app, Schema_getByteSize_app, (packed_cons_keep _ _ Hd).
  rewrite Schema_getByteSize_cons. lia.
Qed.

Lemma packed_byte_size_loop_sum idx acc :
  acc + Schema_getByteSize (packed idx) < 2 ^ 32 ->
  packed_byte_size_loop idx acc = acc + Schema_getByteSize (packed idx).
Proof.
  revert acc. induction idx as [|d idx IH]; intros acc Hfit; simpl.
  - unfold packed. simpl. lia.
  - destruct (isIgnored d) eqn:Hd; simpl.
    + rewrite (packed_cons_drop _ _ Hd) in *. by apply IH.
    + rewrite (packed_cons_keep _ _ Hd), Schema_getByteSize_cons in *.
      unfold u32. rewrite N.mod_small by lia.
      rewrite IH by lia. lia.
Qed.

(** ** memcpy and the packing loops *)

Lemma memcpy_ok dst pos src n :
  (N.to_nat n <= length src)%nat ->
  (N.to_nat pos + N.to_nat n <= length dst)%nat ->
  exists dst',
    memcpy dst pos src n = Some dst'
    /\ length dst' = length dst
    /\ (forall q, (q < N.to_nat pos)%nat -> dst' !! q = dst !! q)
    /\ (forall q, (N.to_nat pos + N.to_nat n <= q)%nat -> dst' !! q = dst !! q)
    /\ (forall j, (j < N.to_nat n)%nat ->
          dst' !! (N.to_nat pos + j)%nat = src !! j).
Proof.
  intros Hsrc Hdst. unfold memcpy.
  rewrite decide_True by (split; assumption).
  eexists; split; [reflexivity|].
  assert (Hlt : length (take (N.to_nat pos) dst) = N.to_nat pos)
    by (rewrite length_take; lia).
  assert (Hls : length (take (N.to_nat n) src) = N.to_nat n)
    by (rewrite length_take; lia).
  repeat split.
  - rewrite !length_app, Hlt, Hls, length_drop. lia.
  - intros q Hq. rewrite lookup_app_l by lia. apply lookup_take_lt. lia.
  - intros q Hq.
    rewrite lookup_app_r by lia. rewrite lookup_app_r by lia.
    rewrite Hlt, Hls, lookup_drop. f_equal. lia.
  - intros j Hj.
    rewrite lookup_app_r by lia. rewrite Hlt.
    replace (N.to_nat pos + j - N.to_nat pos)%nat with j by lia.
    rewrite lookup_app_l by lia. apply lookup_take_lt. lia.
Qed.

(** One record: the cursor advances by the packed record length, nothing
    outside the written window changes, and the bytes of the surviving
    dimension at schema index [i] are copied from their place in the source
    record to the running sum of the surviving sizes before it. *)
Lemma pack_record_ok idx : forall data out cur,
  (N.to_nat (Schema_getByteSize idx) <= length data)%nat ->
  (N.to_nat (cur + Schema_getByteSize (packed idx)) <= length out)%nat ->
  exists out',
    pack_record idx data out cur
      = Some (out', cur + Schema_getByteSize (packed idx))
    /\ length out' = length out
    /\ (forall q, (q < N.to_nat cur)%nat -> out' !! q = out !! q)
    /\ (forall q, (N.to_nat (cur + Schema_getByteSize (packed idx)) <= q)%nat ->
          out' !! q = out !! q)
    /\ (forall (i : nat) d j,
          idx !! i = Some d -> isIgnored d = false -> j < getByteSize d ->
          out' !! N.to_nat (cur + Schema_getByteSize (packed (take i idx)) + j)
          = data !! N.to_nat (Schema_getByteSize (take i idx) + j)).
Proof.
  induction idx as [|d0 idx IH]; intros data out cur Hdata Hout.
  - exists out. simpl. unfold packed; simpl. rewrite N.add_0_r.
    repeat split; try done.
  - rewrite Schema_getByteSize_cons in Hdata.
    destruct (isIgnored d0) eqn:Hd0.
    + rewrite (packed_cons_drop _ _ Hd0) in *.
      destruct (IH (drop (N.to_nat (getByteSize d0)) data) out cur)
        as (out' & Hrun & Hlen & Hlo & Hhi & Hcopy);
        [rewrite length_drop; lia | lia |].
      exists out'. simpl. rewrite Hd0. simpl.
      repeat split; try assumption.
      intros [|i] d j Hi Hd Hj; simpl in Hi.
      * congruence.
      * rewrite firstn_cons, (packed_cons_drop _ _ Hd0), Schema_getByteSize_cons.
        rewrite (Hcopy i d j Hi Hd Hj), lookup_drop. f_equal. lia.
    + rewrite (packed_cons_keep _ _ Hd0), Schema_getByteSize_cons in *.
      destruct (memcpy_ok out cur data (getByteSize d0))
        as (out1 & Hcp & Hlen1 & Hlo1 & Hhi1 & Hcopy1); [lia | lia |].
      destruct (IH (drop (N.to_nat (getByteSize d0)) data) out1
                   (cur + getByteSize d0))
        as (out' & Hrun & Hlen & Hlo & Hhi & Hcopy);
        [rewrite length_drop; lia | lia |].
      exists out'. simpl. rewrite Hd0. simpl. rewrite Hcp, Hrun.
      split; [f_equal; f_equal; lia|].
      split; [congruence|].
      split; [intros q Hq; rewrite Hlo by lia; apply Hlo1; lia|].
      split; [intros q Hq; rewrite Hhi by lia; apply Hhi1; lia|].
      intros [|i] d j Hi Hd Hj; simpl in Hi.
      * injection Hi as <-. simpl.
        rewrite N.add_0_r, N.add_0_l.
        rewrite Hlo by lia.
        replace (N.to_nat (cur + j)) with (N.to_nat cur + N.to_nat j)%nat by lia.
        apply Hcopy1. lia.
      * rewrite firstn_cons, (packed_cons_keep _ _ Hd0), !Schema_getByteSize_cons.
        replace (cur + (getByteSize d0 + Schema_getByteSize (packed (take i idx))) + j)
          with (cur + getByteSize d0 + Schema_getByteSize (packed (take i idx)) + j)
          by lia.
        rewrite (Hcopy i d j Hi Hd Hj), lookup_drop. f_equal. lia.
Qed.

(** All the records from point [i] on: point [i + p] of the buffer becomes
    record [p] of the window written from [cur]. *)
Lemma pack_points_ok buffer : forall todo i out cur,
  (N.to_nat ((i + N.of_nat todo) * Schema_getByteSize (pb_schema buffer))
     <= length (pb_data buffer))%nat ->
  (N.to_nat (cur + N.of_nat todo * Schema_getByteSize (packed (pb_schema buffer)))
     <= length out)%nat ->
  exists out',
    pack_points buffer (pb_schema buffer) todo i out cur
      = Some (out', cur + N.of_nat todo
                            * Schema_getByteSize (packed (pb_schema buffer)))
    /\ length out' = length out
    /\ (forall q, (q < N.to_nat cur)%nat -> out' !! q = out !! q)
    /\ (forall p (k : nat) d j,
          p < N.of_nat todo ->
          pb_schema buffer !! k = Some d -> isIgnored d = false ->
          j < getByteSize d ->
          out' !! N.to_nat
                    (cur + p * Schema_getByteSize (packed (pb_schema buffer))
                     + Schema_getByteSize (packed (take k (pb_schema buffer)))
                     + j)
          = pb_data buffer
              !! N.to_nat ((i + p) * Schema_getByteSize (pb_schema buffer)
                           + Schema_getByteSize (take k (pb_schema buffer))
                           + j)).
Proof.
  set (idx := pb_schema buffer).
  set (R := Schema_getByteSize idx).
  set (P := Schema_getByteSize (packed idx)).
  induction todo as [|todo IH]; intros i out cur Hdata Hout.
  - exists out. simpl. rewrite N.mul_0_l, N.add_0_r.
    repeat split; try done. intros; lia.
  - assert (Hi : (i + N.of_nat (S todo)) * R = i * R + R + N.of_nat todo * R)
      by lia.
    assert (Hc : cur + N.of_nat (S todo) * P = cur + P + N.of_nat todo * P)
      by lia.
    destruct (pack_record_ok idx (getData buffer i) out cur)
      as (out1 & Hrun1 & Hlen1 & Hlo1 & Hhi1 & Hcopy1).
    { unfold getData. rewrite length_drop. fold idx R. lia. }
    { fold P. lia. }
    destruct (IH (i + 1) out1 (cur + P))
      as (out' & Hrun & Hlen & Hlo & Hcopy).
    { replace ((i + 1 + N.of_nat todo) * R) with (i * R + R + N.of_nat todo * R)
        by lia. lia. }
    { lia. }
    exists out'. simpl. fold idx. rewrite Hrun1. fold P. rewrite Hrun.
    split; [f_equal; f_equal; lia|].
    split; [congruence|].
    split; [intros q Hq; rewrite Hlo by lia; apply Hlo1; lia|].
    intros p k d j Hp Hk Hd Hj.
    pose proof (packed_prefix_fits idx k d Hk Hd) as Hfit. fold P in Hfit.
    destruct (decide (p = 0)) as [->|Hp0].
    + rewrite N.mul_0_l, !N.add_0_r.
      rewrite Hlo by lia.
      rewrite (Hcopy1 k d j Hk Hd Hj). unfold getData. rewrite lookup_drop.
      fold idx R. f_equal. lia.
    + assert (Hp' : exists p', p = p' + 1) by (exists (p - 1); lia).
      destruct Hp' as [p' ->].
      replace (cur + (p' + 1) * P + Schema_getByteSize (packed (take k idx)) + j)
        with (cur + P + p' * P + Schema_getByteSize (packed (take k idx)) + j)
        by lia.
      rewrite (Hcopy p' k d j) by (assumption || lia).
      f_equal. lia.
Qed.

(** ** PackSchema *)

Lemma identity_stamp p d : identity (stamp p d) = identity d.
Proof. reflexivity. Qed.

Lemma isIgnored_stamp p d : isIgnored (stamp p d) = isIgnored d.
Proof. reflexivity. Qed.

Lemma getByteSize_stamp p d : getByteSize (stamp p d) = getByteSize d.
Proof. reflexivity. Qed.

Lemma stamp_stamp p q d : stamp p (stamp q d) = stamp p d.
Proof. reflexivity. Qed.

Lemma stamp_from_length p l : length (stamp_from p l) = length l.
Proof. revert p. induction l as [|d l IH]; intros p; simpl; auto. Qed.

Lemma stamp_from_lookup l : forall p (k : nat),
  stamp_from p l !! k = stamp (p + N.of_nat k) <$> l !! k.
Proof.
  induction l as [|d l IH]; intros p [|k]; simpl; try reflexivity.
  - by rewrite N.add_0_r.
  - rewrite IH. do 2 f_equal. lia.
Qed.

(** The position counter of the loop is a [uint32_t]; while it does not
    wrap, the stamped run is the one with consecutive positions. *)
Lemma stamp_wrap_fits l : forall p,
  p + N.of_nat (length l) < 2 ^ 32 -> stamp_wrap p l = stamp_from p l.
Proof.
  induction l as [|d l IH]; intros p Hfit; [done|].
  simpl in Hfit. cbn [stamp_wrap stamp_from]. unfold u32.
  rewrite N.mod_small by lia. rewrite IH by lia. done.
Qed.

(** Packing an already stamped run of dimensions changes nothing. *)
Lemma stamp_wrap_idem l : forall p,
  stamp_wrap p (stamp_wrap p l) = stamp_wrap p l.
Proof. induction l as [|d l IH]; intros p; simpl; [done|]. by rewrite IH. Qed.

Lemma stamp_wrap_kept l : forall p,
  Forall (fun d => isIgnored d = false) l ->
  Forall (fun d => isIgnored d = false) (stamp_wrap p l).
Proof.
  induction l as [|d l IH]; intros p Hall; simpl; [done|].
  inversion Hall; subst. constructor; [done|]. by apply IH.
Qed.

Lemma packed_all_kept s : Forall (fun d => isIgnored d = false) (packed s).
Proof.
  apply Forall_forall. intros d Hd. unfold packed in Hd.
  by apply list_elem_of_filter in Hd as [? _].
Qed.

Lemma packed_of_kept l :
  Forall (fun d => isIgnored d = false) l -> packed l = l.
Proof.
  induction 1 as [|d l Hd _ IH]; [done|].
  by rewrite packed_cons_keep, IH.
Qed.

Lemma identity_stamp_wrap l : forall p,
  identity <$> stamp_wrap p l = identity <$> l.
Proof. induction l as [|d l IH]; intros p; simpl; [done|]. by rewrite IH. Qed.

(** The loop, in closed form: as long as no identity repeats, the surviving
    dimensions are appended in order, each stamped with the counter. *)
Lemma PackSchema_loop_ok idx : forall position clean,
  NoDup (identity <$> (clean ++ packed idx)) ->
  PackSchema_loop idx position clean
  = inr (clean ++ stamp_wrap position (packed idx)).
Proof.
  induction idx as [|d idx IH]; intros position clean Hnd; simpl.
  - unfold packed. simpl. by rewrite app_nil_r.
  - destruct (isIgnored d) eqn:Hd; simpl.
    + rewrite (packed_cons_drop _ _ Hd) in *. by apply IH.
    + rewrite (packed_cons_keep _ _ Hd) in *.
      unfold appendDimension. fold (stamp position d).
      rewrite decide_False.
      2:{ rewrite identity_stamp. rewrite fmap_app, fmap_cons in Hnd.
          apply NoDup_app in Hnd as (_ & Hdis & _).
          intros Hin. apply (Hdis _ Hin). left. }
      simpl. rewrite IH.
      * simpl. by rewrite <- app_assoc.
      * rewrite <- app_assoc. simpl.
        rewrite !fmap_app, !fmap_cons, identity_stamp in *. done.
Qed.

(** Conversely a run that succeeded met no repeated identity. *)
Lemma PackSchema_loop_inv idx : forall position clean r,
  PackSchema_loop idx position clean = inr r ->
  NoDup (identity <$> clean) ->
  NoDup (identity <$> (clean ++ packed idx)).
Proof.
  induction idx as [|d idx IH]; intros position clean r Hrun Hnd; simpl in Hrun.
  - unfold packed. simpl. by rewrite app_nil_r.
  - destruct (isIgnored d) eqn:Hd; simpl in Hrun.
    + rewrite (packed_cons_drop _ _ Hd). by eapply IH.
    + rewrite (packed_cons_keep _ _ Hd).
      unfold appendDimension in Hrun. fold (stamp position d) in Hrun.
      destruct (decide (identity (stamp position d) ∈ identity <$> clean))
        as [Hin|Hnin]; simpl in Hrun; [discriminate|].
      apply IH in Hrun.
      * rewrite <- app_assoc in Hrun. simpl in Hrun.
        rewrite !fmap_app, !fmap_cons, identity_stamp in *. done.
      * rewrite fmap_app. simpl. rewrite identity_stamp in *.
        apply NoDup_app. split; [done|]. split; [|apply NoDup_singleton].
        intros x Hx Hx'. apply list_elem_of_singleton in Hx'. by subst.
Qed.

Lemma Schema_getByteSize_stamp_from l : forall p,
  Schema_getByteSize (stamp_from p l) = Schema_getByteSize l.
Proof.
  induction l as [|d l IH]; intros p; [done|].
  cbn [stamp_from]. rewrite !Schema_getByteSize_cons, IH. done.
Qed.

(** With positive sizes there are at most as many dimensions as bytes. *)
Lemma length_le_byte_size (l : Schema) :
  Forall (fun d => 0 < getByteSize d) l ->
  N.of_nat (length l) <= Schema_getByteSize l.
Proof.
  induction 1 as [|d l Hd _ IH]; [done|].
  rewrite Schema_getByteSize_cons. simpl length. lia.
Qed.

Lemma packed_positive (s : Schema) :
  Forall (fun d => isIgnored d = false -> 0 < getByteSize d) s ->
  Forall (fun d => 0 < getByteSize d) (packed s).
Proof.
  intros Hall. apply Forall_forall. intros d Hd.
  unfold packed in Hd. apply list_elem_of_filter in Hd as [Hk Hin].
  rewrite Forall_forall in Hall. by apply Hall.
Qed.

(** The surviving dimension at schema index [i] is the one at index
    "number of survivors before [i]" of the packed list. *)
Lemma packed_lookup_index (s : Schema) (i : nat) d :
  s !! i = Some d -> isIgnored d = false ->
  packed s !! length (packed (take i s)) = Some d.
Proof.
  intros Hi Hd.
  assert (Hsplit : packed s = packed (take i s) ++ d :: packed (drop (S i) s)).
  { rewrite <- (take_drop_middle s i d Hi) at 1.
    by rewrite packed_app, (packed_cons_keep _ _ Hd). }
  rewrite Hsplit, lookup_app_r by lia. by rewrite Nat.sub_diag.
Qed.

Lemma packed_prefix_count (s : Schema) (i : nat) d :
  s !! i = Some d -> isIgnored d = false ->
  (length (packed (take i s)) < length (packed s))%nat.
Proof.
  intros Hi Hd. apply lookup_lt_is_Some. exists d.
  by apply packed_lookup_index.
Qed.

Lemma take_take_le {A} (l : list A) (i i' : nat) :
  (i <= i')%nat -> take i (take i' l) = take i l.
Proof. intros H. rewrite take_take. f_equal. lia. Qed.

Lemma NoDup_identity_packed (s : Schema) :
  NoDup (identity <$> s) -> NoDup (identity <$> packed s).
Proof.
  intros Hnd. eapply sublist_NoDup; [exact Hnd|].
  apply fmap_sublist, sublist_filter.
Qed.

(** ** C1 *)

(** C1. Packing a schema walks its dimensions in order.  The surviving
    (non-ignored) dimension at schema index [i] receives as position the
    number of survivors before it, and its bytes are written at the running
    sum of the byte sizes of the survivors before it; the packed record
    length is the sum of all surviving byte sizes; positions and offsets
    grow strictly along the schema and the byte ranges do not overlap.
    Stated for schemas without repeated identities, whose surviving
    dimensions have a positive size and whose packed record fits the 32-bit
    counters of the code. *)
Theorem PackSchema_positions_offsets (s : Schema) :
  NoDup (identity <$> s) ->
  Forall (fun d => isIgnored d = false -> 0 < getByteSize d) s ->
  Schema_getByteSize (packed s) < 2 ^ 32 ->
  exists clean,
    PackSchema s = inr clean
    /\ length clean = length (packed s)
    /\ packed_byte_size_loop s 0 = Schema_getByteSize (packed s)
    /\ Schema_getByteSize clean = Schema_getByteSize (packed s)
    /\ (forall (i : nat) d,
          s !! i = Some d -> isIgnored d = false ->
          clean !! length (packed (take i s))
            = Some (stamp (N.of_nat (length (packed (take i s)))) d)
          /\ Schema_getByteSize (packed (take i s)) + getByteSize d
               <= Schema_getByteSize (packed s))
    /\ (forall data out cur,
          (N.to_nat (Schema_getByteSize s) <= length data)%nat ->
          (N.to_nat (cur + Schema_getByteSize (packed s)) <= length out)%nat ->
          exists out',
            pack_record s data out cur
              = Some (out', cur + Schema_getByteSize (packed s))
            /\ forall (i : nat) d j,
                 s !! i = Some d -> isIgnored d = false ->
                 j < getByteSize d ->
                 out' !! N.to_nat
                           (cur + Schema_getByteSize (packed (take i s)) + j)
                 = data !! N.to_nat (Schema_getByteSize (take i s) + j))
    /\ (forall (i i' : nat) d d',
          (i < i')%nat ->
          s !! i = Some d -> isIgnored d = false ->
          s !! i' = Some d' -> isIgnored d' = false ->
          (length (packed (take i s)) < length (packed (take i' s)))%nat
          /\ Schema_getByteSize (packed (take i s)) + getByteSize d
               <= Schema_getByteSize (packed (take i' s))
          /\ Schema_getByteSize (packed (take i s))
               < Schema_getByteSize (packed (take i' s))).
Proof.
  intros Hnd Hpos Hfit.
  pose proof (length_le_byte_size _ (packed_positive _ Hpos)) as Hcount.
  exists (stamp_from 0 (packed s)).
  split.
  { unfold PackSchema. rewrite PackSchema_loop_ok.
    - simpl. rewrite stamp_wrap_fits by lia. done.
    - simpl. by apply NoDup_identity_packed. }
  split; [apply stamp_from_length|].
  split; [by rewrite packed_byte_size_loop_sum by lia|].
  split; [apply Schema_getByteSize_stamp_from|].
  split.
  { intros i d Hi Hd. split.
    - rewrite stamp_from_lookup, (packed_lookup_index _ _ _ Hi Hd). simpl.
      by rewrite N.add_0_l.
    - by apply packed_prefix_fits. }
  split.
  { intros data out cur Hdata Hout.
    destruct (pack_record_ok s data out cur Hdata Hout)
      as (out' & Hrun & _ & _ & _ & Hcopy).
    exists out'. split; assumption. }
  intros i i' d d' Hlt Hi Hd Hi' Hd'.
  assert (Hti : take i' s !! i = Some d) by (rewrite lookup_take_lt; done).
  pose proof (packed_prefix_fits (take i' s) i d Hti Hd) as Hb.
  pose proof (packed_prefix_count (take i' s) i d Hti Hd) as Hc.
  rewrite take_take_le in Hb, Hc by lia.
  rewrite Forall_forall in Hpos.
  assert (0 < getByteSize d)
    by (apply Hpos; [by eapply list_elem_of_lookup_2|done]).
  repeat split; [done|done|lia].
Qed.

Lemma PackSchema_positions_offsets_witness :
  exists clean,
    PackSchema xyc_schema = inr clean
    /\ length clean = 2%nat
    /\ packed_byte_size_loop xyc_schema 0 = 16.
Proof.
  destruct (PackSchema_positions_offsets xyc_schema)
    as (clean & Hrun & Hlen & Hsize & _).
  - apply (bool_decide_unpack _). vm_compute. exact I.
  - repeat constructor; simpl; intros; lia.
  - vm_compute. reflexivity.
  - exists clean. repeat split; assumption.
Defined.

(** ** C5 *)

(** A successful pack is a fixed point of packing. *)
Lemma PackSchema_fixed_point (s c : Schema) :
  PackSchema s = inr c ->
  Forall (fun d => isIgnored d = false) c /\ PackSchema c = inr c.
Proof.
  intros Hrun. unfold PackSchema in *.
  pose proof (PackSchema_loop_inv s 0 [] c Hrun (NoDup_nil_2)) as Hnd.
  rewrite PackSchema_loop_ok in Hrun by exact Hnd.
  simpl in Hrun, Hnd. injection Hrun as <-.
  assert (Hkept : Forall (fun d => isIgnored d = false) (stamp_wrap 0 (packed s)))
    by apply stamp_wrap_kept, packed_all_kept.
  split; [exact Hkept|].
  rewrite PackSchema_loop_ok.
  - simpl. by rewrite (packed_of_kept _ Hkept), stamp_wrap_idem.
  - simpl. by rewrite (packed_of_kept _ Hkept), identity_stamp_wrap.
Qed.

Lemma Schema_eqb_refl (s : Schema) : Schema_eqb s s = true.
Proof.
  unfold Schema_eqb. rewrite bool_decide_eq_true_2 by done. done.
Qed.

(** C5. Packing is idempotent.  For every schema without repeated
    identities packing succeeds, the packed schema holds no ignored
    dimension, and packing it again succeeds and returns it unchanged, hence
    a schema equal to it under schema equality. *)
Theorem PackSchema_idempotent (s : Schema) :
  NoDup (identity <$> s) ->
  exists c1 c2,
    PackSchema s = inr c1
    /\ PackSchema c1 = inr c2
    /\ Forall (fun d => isIgnored d = false) c1
    /\ c2 = c1
    /\ Schema_eqb c2 c1 = true.
Proof.
  intros Hnd.
  assert (Hrun : PackSchema s = inr (stamp_wrap 0 (packed s))).
  { unfold PackSchema. rewrite PackSchema_loop_ok; [done|].
    simpl. by apply NoDup_identity_packed. }
  destruct (PackSchema_fixed_point _ _ Hrun) as [Hkept Hagain].
  exists (stamp_wrap 0 (packed s)), (stamp_wrap 0 (packed s)).
  repeat split; try assumption. apply Schema_eqb_refl.
Qed.

Lemma PackSchema_idempotent_witness :
  exists c, PackSchema xyc_schema = inr c /\ PackSchema c = inr c.
Proof.
  destruct (PackSchema_idempotent xyc_schema) as (c1 & c2 & H1 & H2 & _ & -> & _).
  - apply (bool_decide_unpack _). vm_compute. exact I.
  - exists c1. split; assumption.
Defined.

(** ** Packing within 32 bits *)

(** Packing a buffer that holds its records is defined when the packed
    length fits 32 bits. *)
Lemma PackPointData_defined (buffer : PointBuffer) :
  (N.to_nat (pb_numPoints buffer * Schema_getByteSize (pb_schema buffer))
     <= length (pb_data buffer))%nat ->
  Schema_getByteSize (packed (pb_schema buffer)) < 2 ^ 32 ->
  pb_numPoints buffer * Schema_getByteSize (packed (pb_schema buffer)) < 2 ^ 32 ->
  exists out,
    PackPointData buffer
      = Some (out,
              pb_numPoints buffer * Schema_getByteSize (packed (pb_schema buffer)),
              Schema_getByteSize (packed (pb_schema buffer))).
Proof.
  intros Hdata HP Hlen.
  unfold PackPointData, getSchema, getNumPoints.
  rewrite packed_byte_size_loop_sum by lia. rewrite N.add_0_l.
  unfold u32. rewrite N.mod_small by lia.
  destruct (pack_points_ok buffer (N.to_nat (pb_numPoints buffer)) 0
              (replicate (N.to_nat (pb_numPoints buffer
                 * Schema_getByteSize (packed (pb_schema buffer)))) x00) 0)
    as (out & Hrun & _).
  { rewrite N2Nat.id, N.add_0_l. exact Hdata. }
  { rewrite length_replicate, N2Nat.id. lia. }
  rewrite Hrun. by exists out.
Qed.

(** Within 32 bits.  Packing the point data of a buffer that holds its
    [numPoints] records, when the packed length fits the 32-bit length of
    the code,
    yields [numPoints] times the packed record length bytes; record [p] of
    the output holds, for each surviving dimension in schema order, exactly
    the bytes that dimension has in record [p] of the buffer, at the running
    sum of the surviving sizes before it.  Ignored dimensions contribute no
    byte. *)
Theorem PackPointData_copies_survivors (buffer : PointBuffer) :
  (N.to_nat (pb_numPoints buffer * Schema_getByteSize (pb_schema buffer))
     <= length (pb_data buffer))%nat ->
  Schema_getByteSize (packed (pb_schema buffer)) < 2 ^ 32 ->
  pb_numPoints buffer * Schema_getByteSize (packed (pb_schema buffer)) < 2 ^ 32 ->
  exists out,
    PackPointData buffer
      = Some (out,
              pb_numPoints buffer * Schema_getByteSize (packed (pb_schema buffer)),
              Schema_getByteSize (packed (pb_schema buffer)))
    /\ length out
        = N.to_nat (pb_numPoints buffer
                    * Schema_getByteSize (packed (pb_schema buffer)))
    /\ forall p (k : nat) d j,
         p < pb_numPoints buffer ->
         pb_schema buffer !! k = Some d -> isIgnored d = false ->
         j < getByteSize d ->
         out !! N.to_nat
                  (p * Schema_getByteSize (packed (pb_schema buffer))
                   + Schema_getByteSize (packed (take k (pb_schema buffer)))
                   + j)
         = pb_data buffer
             !! N.to_nat (p * Schema_getByteSize (pb_schema buffer)
                          + Schema_getByteSize (take k (pb_schema buffer))
                          + j).
Proof.
  intros Hdata HP Hlen.
  unfold PackPointData, getSchema, getNumPoints.
  rewrite packed_byte_size_loop_sum by lia. rewrite N.add_0_l.
  unfold u32. rewrite N.mod_small by lia.
  set (P := Schema_getByteSize (packed (pb_schema buffer))) in *.
  set (n := pb_numPoints buffer) in *.
  destruct (pack_points_ok buffer (N.to_nat n) 0
              (replicate (N.to_nat (n * P)) x00) 0)
    as (out & Hrun & Hlen' & _ & Hcopy).
  { rewrite N2Nat.id, N.add_0_l. exact Hdata. }
  { rewrite length_replicate, N2Nat.id. fold P. lia. }
  rewrite Hrun. exists out.
  split; [reflexivity|].
  split; [by rewrite Hlen', length_replicate|].
  intros p k d j Hp Hk Hd Hj.
  specialize (Hcopy p k d j). rewrite N2Nat.id in Hcopy.
  specialize (Hcopy Hp Hk Hd Hj). fold P in Hcopy.
  rewrite !N.add_0_l in Hcopy. exact Hcopy.
Qed.


Example PackPointData_icr_buffer :
  PackPointData icr_buffer = Some ([x11; x12; x01; x21; x22; x02], 6, 3).
Proof. vm_compute. reflexivity. Qed.

Lemma PackPointData_copies_survivors_witness :
  exists out,
    PackPointData icr_buffer = Some (out, 6, 3)
    /\ length out = 6%nat
    /\ out !! 5%nat = Some x02.
Proof.
  destruct (PackPointData_copies_survivors icr_buffer)
    as (out & Hrun & Hlen & Hcopy).
  - vm_compute. lia.
  - vm_compute. reflexivity.
  - vm_compute. reflexivity.
  - exists out. split; [exact Hrun|]. split; [exact Hlen|].
    apply (Hcopy 1 2%nat
             (mkDimension "ReturnNumber" 5 Uint8 1 false 2 nil_uuid 1 0) 0);
      vm_compute; reflexivity.
Defined.

(** ** Running session computations *)

Ltac run_m :=
  unfold bind, ret, throw, lift, gets, once, log_event; simpl.

Lemma max_pcid_bound (rows : list FormatRow) :
  forall r, r ∈ rows -> fr_pcid r < foldr N.max 0 (fr_pcid <$> rows) + 1.
Proof.
  induction rows as [|r0 rows IH]; intros r Hr.
  - by apply elem_of_nil in Hr.
  - pose proof (N.le_max_l (fr_pcid r0) (foldr N.max 0 (fr_pcid <$> rows))).
    pose proof (N.le_max_r (fr_pcid r0) (foldr N.max 0 (fr_pcid <$> rows))).
    apply elem_of_cons in Hr as [->|Hr]; rewrite fmap_cons; simpl; [lia|].
    specialize (IH r Hr). lia.
Qed.

Lemma max_pcid_fits (rows : list FormatRow) :
  Forall (fun r => fr_pcid r + 1 < 2 ^ 32) rows ->
  foldr N.max 0 (fr_pcid <$> rows) + 1 < 2 ^ 32.
Proof.
  induction 1 as [|r rows Hr _ IH]; [simpl; lia|].
  rewrite fmap_cons. simpl. apply N.add_lt_mono_r with (p := 1) in Hr.
  destruct (N.max_spec (fr_pcid r) (foldr N.max 0 (fr_pcid <$> rows)))
    as [[_ ->]|[_ ->]]; lia.
Qed.

Section SetupSchemaFacts.
Context (env : Env).

Lemma find_schema_Some rows out pcid :
  find_schema env rows out = Some pcid ->
  exists (i : nat) r,
    rows !! i = Some r /\ schema_matches env r out
    /\ pcid = u32 (fr_pcid r)
    /\ forall (j : nat) r', (j < i)%nat -> rows !! j = Some r' ->
                            ~ schema_matches env r' out.
Proof.
  induction rows as [|r0 rows IH]; simpl; [discriminate|].
  destruct (Schema_eqb (env_from_xml env (fr_schema r0)) out) eqn:Hm.
  - intros [= <-]. exists 0%nat, r0. repeat split; try done.
    intros j r' Hj. lia.
  - intros Hf. destruct (IH Hf) as (i & r & Hi & Hr & Hp & Hfirst).
    exists (S i), r. repeat split; try done.
    intros [|j] r' Hj Hr'; simpl in Hr'.
    + injection Hr' as <-. unfold schema_matches. congruence.
    + apply (Hfirst j r'); [lia|done].
Qed.

Lemma find_schema_None rows out :
  find_schema env rows out = None ->
  forall r, r ∈ rows -> ~ schema_matches env r out.
Proof.
  induction rows as [|r0 rows IH]; simpl; intros Hf r Hr.
  - by apply elem_of_nil in Hr.
  - destruct (Schema_eqb (env_from_xml env (fr_schema r0)) out) eqn:Hm;
      [discriminate|].
    apply elem_of_cons in Hr as [->|Hr].
    + unfold schema_matches. congruence.
    + by apply IH.
Qed.
End SetupSchemaFacts.

Lemma PackSchema_total (s : Schema) :
  NoDup (identity <$> s) -> PackSchema s = inr (stamp_wrap 0 (packed s)).
Proof.
  intros Hnd. unfold PackSchema. rewrite PackSchema_loop_ok; [done|].
  simpl. by apply NoDup_identity_packed.
Qed.

(** ** C7 *)

(** C7.  When no pcid was configured ([m_pcid] is 0), the
    backend accepts the statements and the catalog ids leave room in 32
    bits, registering the packed schema either finds a catalog entry whose
    stored schema equals it, returns that entry's id and inserts nothing,
    or finds none and appends one entry under a fresh id: 1 for an empty
    catalog, else the largest id plus one. *)
Theorem SetupSchema_registers_by_equality (env : Env) (w : Writer)
    (buffer_schema : Schema) (srid : N) (db : Db) :
  m_pcid w = 0 ->
  NoDup (identity <$> buffer_schema) ->
  accepts_all env ->
  Forall (fun r => fr_pcid r + 1 < 2 ^ 32) (pointcloud_formats (db_store db)) ->
  registers_by_equality env w buffer_schema srid db.
Proof.
  intros Hpcid Hnd Hacc Hids.
  pose proof (PackSchema_total _ Hnd) as Hpack.
  unfold registers_by_equality.
  exists (stamp_wrap 0 (packed buffer_schema)).
  unfold SetupSchema. run_m. rewrite Hpack, Hpcid. simpl.
  rewrite Hacc. simpl.
  destruct (pointcloud_formats (db_store db)) as [|r0 rows] eqn:Hrows.
  - (* empty catalog *)
    simpl. rewrite Hacc. simpl. rewrite Hrows.
    eexists _, _, _. split; [reflexivity|]. split; [reflexivity|].
    right. simpl. repeat split; try done.
    + intros r Hr. by apply elem_of_nil in Hr.
    + intros r Hr. by apply elem_of_nil in Hr.
  - (* some entries *)
    replace (0 <? Z.of_nat (length (r0 :: rows)))%Z with true
      by (symmetry; apply Z.ltb_lt; simpl; lia).
    rewrite Hacc. simpl. rewrite Hrows.
    destruct (find_schema env (r0 :: rows) (stamp_wrap 0 (packed buffer_schema)))
      as [pcid|] eqn:Hfind.
    + destruct (find_schema_Some env _ _ _ Hfind)
        as (i & r & Hi & Hr & -> & _).
      assert (Hin : r ∈ r0 :: rows) by (by eapply list_elem_of_lookup_2).
      assert (Hsmall : u32 (fr_pcid r) = fr_pcid r).
      { unfold u32. apply N.mod_small.
        rewrite Forall_forall in Hids. specialize (Hids r Hin). lia. }
      rewrite Hsmall.
      eexists _, _, _. split; [reflexivity|]. split; [reflexivity|].
      left. simpl. rewrite Hrows. split; [|done].
      exists r. by repeat split.
    + replace (Z.of_nat (length (r0 :: rows)) =? 0)%Z with false
        by (symmetry; apply Z.eqb_neq; simpl; lia).
      rewrite Hacc. simpl. rewrite Hacc. simpl.
      unfold max_pcid_plus1. simpl. rewrite Hrows.
      assert (Hsmall : u32 (foldr N.max 0 (fr_pcid <$> r0 :: rows) + 1)
                       = foldr N.max 0 (fr_pcid <$> r0 :: rows) + 1).
      { unfold u32. apply N.mod_small. by apply max_pcid_fits. }
      rewrite Hsmall.
      eexists _, _, _. split; [reflexivity|]. split; [reflexivity|].
      right. simpl. repeat split; try done.
      * by apply find_schema_None.
      * intros r Hr. by apply (max_pcid_bound (r0 :: rows)).
Qed.

Lemma SetupSchema_registers_by_equality_witness :
  registers_by_equality sample_env (sample_writer xyc_schema 0) xyc_schema
    4326 (sample_db [mkFormatRow 1 4326 "xy"]).
Proof.
  apply SetupSchema_registers_by_equality.
  - reflexivity.
  - apply (bool_decide_unpack _). vm_compute. exact I.
  - intros db st. reflexivity.
  - repeat constructor; simpl; lia.
Defined.

(** With a pcid configured the schemas are not compared at all: the
    configured id comes back although another entry holds the equal
    schema, so registration by equality fails as a statement about every
    call. *)
Lemma SetupSchema_configured_pcid_skips_equality :
  ~ registers_by_equality sample_env (sample_writer xyc_schema 2) xyc_schema
      4326 (sample_db [mkFormatRow 1 4326 "xy"; mkFormatRow 2 4326 "other"]).
Proof.
  intros (out & pcid & w' & db' & Hpack & Hrun & Hcases).
  vm_compute in Hpack. injection Hpack as <-.
  vm_compute in Hrun. injection Hrun as <- <- <-.
  destruct Hcases as [[(r & Hin & Hmatch & Hid) _] | (Hnone & _)].
  - apply elem_of_cons in Hin as [->|Hin]; [vm_compute in Hid; discriminate|].
    apply elem_of_cons in Hin as [->|Hin]; [|by apply elem_of_nil in Hin].
    vm_compute in Hmatch. discriminate.
  - apply (Hnone (mkFormatRow 1 4326 "xy")); [left|].
    vm_compute. reflexivity.
Qed.

Example SetupSchema_configured_pcid :
  fst (SetupSchema sample_env (sample_writer xyc_schema 2) xyc_schema 4326
         (sample_db [mkFormatRow 1 4326 "xy"; mkFormatRow 2 4326 "other"]))
  = inr (2, sample_writer xyc_schema 2).
Proof. vm_compute. reflexivity. Qed.

(** Schema equality looks at the set of dimensions, not at their order, and
    at every attribute of a dimension. *)
Lemma Schema_eqb_true (a b : Schema) :
  Schema_eqb a b = true <-> (forall d, d ∈ a <-> d ∈ b).
Proof.
  unfold Schema_eqb. rewrite andb_true_iff, !bool_decide_eq_true.
  split.
  - intros [Hab Hba] d. split; [apply Hab|apply Hba].
  - intros H. split; intros d Hd; by apply H.
Qed.

Lemma Schema_eqb_permutation (a b : Schema) :
  a ≡ₚ b -> Schema_eqb a b = true.
Proof.
  intros Hp. apply Schema_eqb_true. intros d. by rewrite Hp.
Qed.

Example Schema_eqb_sees_scale :
  Schema_eqb [mkDimension "X" 1 Int32 4 false 0 nil_uuid 100 0]
             [mkDimension "X" 1 Int32 4 false 0 nil_uuid 1000 0] = false.
Proof. vm_compute. reflexivity. Qed.

(** ** Commit and rollback *)

Lemma quiet_ret {A} (a : A) : quiet (ret a).
Proof.
  intros db r db' [= <- <-]. exists []. rewrite app_nil_r.
  repeat split; try done; apply not_elem_of_nil.
Qed.

Lemma quiet_throw {A} (e : Error) : quiet (@throw A e).
Proof.
  intros db r db' [= <- <-]. exists []. rewrite app_nil_r.
  repeat split; try done; apply not_elem_of_nil.
Qed.

Lemma quiet_lift {A} (x : Result A) : quiet (lift x).
Proof.
  intros db r db' [= <- <-]. exists []. rewrite app_nil_r.
  repeat split; try done; apply not_elem_of_nil.
Qed.

Lemma quiet_gets {A} (f : Store -> A) : quiet (gets f).
Proof.
  intros db r db' [= <- <-]. exists []. rewrite app_nil_r.
  repeat split; try done; apply not_elem_of_nil.
Qed.

Lemma quiet_once env (st : Stmt) : quiet (once env st).
Proof.
  intros db r db'. unfold once.
  destruct (env_rejects env db st); intros [= <- <-].
  - exists []. rewrite app_nil_r.
    repeat split; try done; apply not_elem_of_nil.
  - exists [EvStatement st]. simpl.
    repeat split; try done; intros Hin;
      apply list_elem_of_singleton in Hin; discriminate.
Qed.

Lemma quiet_bind {A B} (m : M A) (k : A -> M B) :
  quiet m -> (forall a, quiet (k a)) -> quiet (bind m k).
Proof.
  intros Hm Hk db r db'. unfold bind.
  destruct (m db) as [[e|a] db1] eqn:Hrun.
  - intros [= <- <-]. by apply (Hm db (inl e) db1).
  - intros Hrun2.
    destruct (Hm _ _ _ Hrun) as (evs1 & Hlog1 & Hr1 & Hc1 & Ht1).
    destruct (Hk a _ _ _ Hrun2) as (evs2 & Hlog2 & Hr2 & Hc2 & Ht2).
    exists (evs1 ++ evs2).
    rewrite Hlog2, Hlog1, app_assoc.
    repeat split; try done.
    + rewrite elem_of_app. tauto.
    + rewrite elem_of_app. tauto.
    + congruence.
Qed.

Create HintDb quiet_db.
#[export] Hint Resolve quiet_ret quiet_throw quiet_lift quiet_gets quiet_once
  : quiet_db.

(** Walks a computation built from [bind], conditionals and matches. *)
Ltac quiet_step :=
  match goal with
  | |- quiet (bind _ _) => apply quiet_bind; [|intros ?]
  | |- quiet (if ?c then _ else _) => destruct c
  | |- quiet (match ?x with _ => _ end) => destruct x
  | |- quiet _ => solve [auto with quiet_db]
  end.

Ltac quiet_auto := repeat quiet_step.

Section QuietWriter.
Context (env : Env).

Lemma quiet_run_user_sql name w : quiet (run_user_sql env name w).
Proof. unfold run_user_sql. quiet_auto. Qed.

Lemma quiet_CheckTableExists name : quiet (CheckTableExists env name).
Proof. unfold CheckTableExists. quiet_auto. Qed.

Lemma quiet_SetupSchema w s srid : quiet (SetupSchema env w s srid).
Proof. unfold SetupSchema. quiet_auto. Qed.

Lemma quiet_writeBufferBegin w buffer : quiet (writeBufferBegin w buffer).
Proof. unfold writeBufferBegin. quiet_auto. Qed.

Lemma quiet_WriteBlock w buffer : quiet (WriteBlock env w buffer).
Proof. unfold WriteBlock. quiet_auto. Qed.

Lemma quiet_writeBuffer w buffer : quiet (writeBuffer env w buffer).
Proof.
  unfold writeBuffer. apply quiet_bind; [apply quiet_WriteBlock|].
  intros ?. apply quiet_ret.
Qed.

(** What follows [m_session->begin()] in [writeBegin]. *)
Lemma quiet_writeBegin_rest w :
  quiet (letm _ := run_user_sql env "pre_sql" w in
         letm bHaveTable := CheckTableExists env (m_table_name w) in
         letm bHaveTable :=
           (if m_overwrite w && bHaveTable then
              letm _ := DeleteTable env (m_schema_name w) (m_table_name w) in
              ret false
            else ret bHaveTable) in
         letm '(pcid, w) := SetupSchema env w (m_pdal_schema w) (m_srid w) in
         let w := set_m_pcid w pcid in
         letm _ :=
           (if negb bHaveTable then
              CreateTable env (m_schema_name w) (m_table_name w)
                          (m_column_name w) (m_pcid w)
            else ret tt) in
         ret w).
Proof.
  apply quiet_bind; [apply quiet_run_user_sql|intros ?].
  apply quiet_bind; [apply quiet_CheckTableExists|intros ?].
  apply quiet_bind; [unfold DeleteTable; quiet_auto|intros ?].
  apply quiet_bind; [apply quiet_SetupSchema|intros [? ?]].
  unfold CreateTable. quiet_auto.
Qed.

(** What precedes [m_session->commit()] in [writeEnd]. *)
Lemma quiet_writeEnd_body w :
  quiet (letm _ :=
           (if m_create_index w && m_have_postgis w then
              CreateIndex env (m_schema_name w) (m_table_name w)
                          (m_column_name w)
            else ret tt) in
         run_user_sql env "post_sql" w).
Proof.
  apply quiet_bind; [unfold CreateIndex; quiet_auto|intros ?].
  apply quiet_run_user_sql.
Qed.
End QuietWriter.

Lemma bind_assoc_at {A B C} (m : M A) (k : A -> M B) (h : B -> M C) db :
  bind (bind m k) h db = bind m (fun a => bind (k a) h) db.
Proof.
  unfold bind. destruct (m db) as [[e|a] db1]; [reflexivity|].
  destruct (k a db1) as [[e|b] db2]; reflexivity.
Qed.

(** A commit placed after a quiet computation is reached exactly when that
    computation returns, and is then the last event. *)
Lemma commit_after_quiet {A} (m : M A) :
  quiet m ->
  forall db r db',
    bind m (fun _ => session_commit) db = (r, db') ->
    exists evs,
      db_log db' = db_log db ++ evs
      /\ (EvRollback ∉ evs)
      /\ match r with
         | inr _ =>
             exists evs0,
               evs = evs0 ++ [EvCommit] /\ (EvCommit ∉ evs0)
               /\ db_in_transaction db' = false
         | inl _ =>
             (EvCommit ∉ evs)
             /\ db_in_transaction db' = db_in_transaction db
         end.
Proof.
  intros Hm db r db' Hrun. unfold bind in Hrun.
  destruct (m db) as [[e|a] db1] eqn:Hrun1.
  - injection Hrun as <- <-.
    destruct (Hm _ _ _ Hrun1) as (evs & Hlog & Hr & Hc & Ht).
    exists evs. by repeat split.
  - unfold session_commit in Hrun. injection Hrun as <- <-.
    destruct (Hm _ _ _ Hrun1) as (evs & Hlog & Hr & Hc & Ht).
    exists (evs ++ [EvCommit]). simpl. rewrite Hlog, app_assoc.
    split; [done|]. split.
    + rewrite elem_of_app, list_elem_of_singleton.
      intros [?|?]; [done|discriminate].
    + exists evs. by repeat split.
Qed.

(** ** C8 *)

(** C8. The writer never asks the session to roll back.  [writeBegin]
    opens the transaction and neither commits nor rolls back; preparing and
    writing a buffer, whether they succeed or fail, leave the transaction
    as it was, so an error after [writeBegin] leaves it open; [writeEnd]
    commits as its last act whenever it returns, whatever the count it is
    given, and it returns whenever the backend accepts its statements.
    The text of user-supplied SQL is not looked into. *)
Theorem transaction_committed_only_by_writeEnd (env : Env) (w : Writer)
    (buffer : PointBuffer) (n : N) (db : Db) :
  (forall r db',
      writeBegin env w n db = (r, db') ->
      exists evs,
        db_log db' = db_log db ++ EvBegin :: evs
        /\ (EvRollback ∉ evs) /\ (EvCommit ∉ evs)
        /\ db_in_transaction db' = true)
  /\ quiet (writeBufferBegin w buffer)
  /\ quiet (writeBuffer env w buffer)
  /\ (forall r db',
        writeEnd env w n db = (r, db') ->
        exists evs,
          db_log db' = db_log db ++ evs
          /\ (EvRollback ∉ evs)
          /\ match r with
             | inr _ =>
                 exists evs0,
                   evs = evs0 ++ [EvCommit] /\ (EvCommit ∉ evs0)
                   /\ db_in_transaction db' = false
             | inl _ =>
                 (EvCommit ∉ evs)
                 /\ db_in_transaction db' = db_in_transaction db
             end)
  /\ (accepts_all env -> exists db', writeEnd env w n db = (inr tt, db')).
Proof.
  split; [|split; [|split; [|split]]].
  - intros r db' Hrun. unfold writeBegin in Hrun.
    unfold bind at 1 in Hrun. unfold session_begin in Hrun.
    match type of Hrun with ?m ?d = _ =>
      destruct (quiet_writeBegin_rest env w d r db' Hrun)
        as (evs & Hlog & Hr & Hc & Ht)
    end.
    exists evs. simpl in Hlog, Ht.
    rewrite Hlog, <- app_assoc. by repeat split.
  - apply quiet_writeBufferBegin.
  - apply quiet_writeBuffer.
  - intros r db' Hrun. unfold writeEnd in Hrun.
    rewrite <- bind_assoc_at in Hrun.
    by apply (commit_after_quiet _ (quiet_writeEnd_body env w)) in Hrun.
  - intros Hacc. unfold writeEnd, run_user_sql, CreateIndex. run_m.
    unfold session_commit.
    destruct (m_create_index w && m_have_postgis w);
      repeat (rewrite ?Hacc; simpl;
              try match goal with
                  | |- context [decide ?P] => destruct (decide P)
                  end);
      eexists; reflexivity.
Qed.

Lemma transaction_committed_only_by_writeEnd_witness :
  exists db',
    writeEnd sample_env (sample_writer xyc_schema 1) 0 (sample_db [])
    = (inr tt, db')
    /\ db_in_transaction db' = false.
Proof.
  destruct (transaction_committed_only_by_writeEnd sample_env
              (sample_writer xyc_schema 1) icr_buffer 0 (sample_db []))
    as (_ & _ & _ & Hend & Hreturns).
  destruct Hreturns as [db' Hrun]; [intros db st; reflexivity|].
  destruct (Hend _ _ Hrun) as (evs & _ & _ & evs0 & _ & _ & Htx).
  exists db'. split; [exact Hrun|exact Htx].
Defined.

(** A buffer write that fails after [writeBegin]: the transaction stays
    open, and the session was asked neither to commit nor to roll back. *)
Example error_leaves_transaction_open :
  let w := sample_writer icr_schema 0 in
  let '(r1, db1) := writeBegin sample_env w 0 (mkDb (mkStore [] [] []) false []) in
  let '(r2, db2) := writeBuffer sample_env w icr_buffer db1 in
  r2 = inl (NotFoundError "BlockID")
  /\ db_in_transaction db2 = true
  /\ db_log db2
     = [EvBegin;
        EvStatement SelectTablenames;
        EvStatement SelectCountFormats;
        EvStatement (InsertFormat 1 4326 "schema/2/dimensional");
        EvStatement (CreateTableStmt "" "patches" "pa" 1)].
Proof. vm_compute. repeat split; reflexivity. Qed.

(** ** C10 *)

(** On a buffer whose schema has no [BlockID] dimension the lookup raises
    before anything is written. *)
Example writeBuffer_without_BlockID :
  fst (writeBuffer sample_env (sample_writer icr_schema 1) icr_buffer
         (sample_db []))
  = inl (NotFoundError "BlockID").
Proof. vm_compute. reflexivity. Qed.

(** So [writeBuffer] does not return the point count of every buffer. *)
Lemma writeBuffer_fails_without_BlockID :
  ~ writeBuffer_returns_count sample_env (sample_writer icr_schema 1)
      icr_buffer (sample_db []).
Proof.
  unfold writeBuffer_returns_count. vm_compute. discriminate.
Qed.

(** Packing is defined on every buffer that holds its records and whose
    packed length fits 32 bits; an empty buffer needs no bound on the record
    length. *)
Lemma PackPointData_returns (buffer : PointBuffer) :
  (N.to_nat (pb_numPoints buffer * Schema_getByteSize (pb_schema buffer))
     <= length (pb_data buffer))%nat ->
  pb_numPoints buffer * Schema_getByteSize (packed (pb_schema buffer)) < 2 ^ 32 ->
  exists r, PackPointData buffer = Some r.
Proof.
  intros Hdata Hlen.
  destruct (N.eq_dec (pb_numPoints buffer) 0) as [Hn|Hn].
  - unfold PackPointData, getNumPoints. rewrite Hn. simpl. by eexists.
  - destruct (PackPointData_defined buffer Hdata) as [out Hpack]; [nia|lia|].
    by eexists.
Qed.

(** The lookup by name finds a dimension exactly when one carries the
    name, and reports the name it missed. *)
Lemma getDimension_found (s : Schema) (name : string) :
  (exists d, d ∈ s /\ dim_name d = name) ->
  exists d, getDimension s name = inr d.
Proof.
  induction s as [|d0 s IH]; intros (d & Hin & Hname); simpl.
  - by apply elem_of_nil in Hin.
  - destruct (decide (dim_name d0 = name)); [by eexists|].
    apply IH. apply elem_of_cons in Hin as [->|Hin]; [done|by exists d].
Qed.

Lemma getDimension_absent (s : Schema) (name : string) :
  (forall d, d ∈ s -> dim_name d <> name) ->
  getDimension s name = inl (NotFoundError name).
Proof.
  induction s as [|d0 s IH]; intros Hno; simpl; [done|].
  destruct (decide (dim_name d0 = name)) as [Heq|_].
  - by destruct (Hno d0 (list_elem_of_here _ _)).
  - apply IH. intros d Hin. apply Hno. by apply list_elem_of_further.
Qed.

(** C10.  For a buffer that holds its records and whose packed length
    fits 32 bits: when its schema has a [BlockID] dimension and the backend
    accepts the insert, [writeBuffer] returns the full point count of the
    buffer and one patch is inserted, whatever the configured patch
    capacity (the count is compared with the capacity and nothing follows
    from the comparison); when its schema has no [BlockID] dimension,
    [writeBuffer] fails with [NotFoundError] and the database is as it
    was. *)
Theorem writeBuffer_ignores_capacity (env : Env) (w : Writer)
    (buffer : PointBuffer) (db : Db) :
  (N.to_nat (pb_numPoints buffer * Schema_getByteSize (pb_schema buffer))
     <= length (pb_data buffer))%nat ->
  pb_numPoints buffer * Schema_getByteSize (packed (pb_schema buffer)) < 2 ^ 32 ->
  ((exists d, d ∈ pb_schema buffer /\ dim_name d = "BlockID") ->
   (forall hex, env_rejects env db (InsertPatch (m_table_name w) hex) = false) ->
   exists db' hex,
     writeBuffer env w buffer db = (inr (getNumPoints buffer), db')
     /\ patches (db_store db') = patches (db_store db) ++ [(m_table_name w, hex)])
  /\ ((forall d, d ∈ pb_schema buffer -> dim_name d <> "BlockID") ->
      writeBuffer env w buffer db = (inl (NotFoundError "BlockID"), db)).
Proof.
  intros Hdata Hlen.
  destruct (PackPointData_returns buffer Hdata Hlen) as ([[out len] size] & Hpack).
  split.
  - intros Hhas Hacc.
    destruct (getDimension_found _ _ Hhas) as [d Hblock].
    unfold writeBuffer, WriteBlock. run_m.
    rewrite Hpack. simpl. unfold getSchema. rewrite Hblock. simpl.
    destruct (m_patch_capacity w <? u32 (getNumPoints buffer)); simpl;
      rewrite Hacc; simpl; eexists _, _; split; reflexivity.
  - intros Hno.
    unfold writeBuffer, WriteBlock. run_m.
    rewrite Hpack. simpl. unfold getSchema.
    by rewrite (getDimension_absent _ _ Hno).
Qed.

Lemma writeBuffer_ignores_capacity_witness :
  (m_patch_capacity (tight_writer blk_schema) < getNumPoints blk_buffer
   /\ exists db',
        writeBuffer sample_env (tight_writer blk_schema) blk_buffer
                    (sample_db []) = (inr 2, db'))
  /\ writeBuffer sample_env (tight_writer icr_schema) icr_buffer (sample_db [])
     = (inl (NotFoundError "BlockID"), sample_db []).
Proof.
  split; [split; [vm_compute; reflexivity|]|].
  - destruct (writeBuffer_ignores_capacity sample_env (tight_writer blk_schema)
                blk_buffer (sample_db [])) as [Hreturns _].
    + vm_compute. lia.
    + vm_compute. reflexivity.
    + destruct Hreturns as (db' & hex & Hrun & _).
      * exists (mkDimension "BlockID" 512 Int32 4 false 1 nil_uuid 1 0).
        split; [|reflexivity]. apply (bool_decide_unpack _). vm_compute. exact I.
      * intros hex. reflexivity.
      * exists db'. exact Hrun.
  - destruct (writeBuffer_ignores_capacity sample_env (tight_writer icr_schema)
                icr_buffer (sample_db [])) as [_ Hfails].
    + vm_compute. lia.
    + vm_compute. reflexivity.
    + apply Hfails. intros d Hin.
      repeat (apply elem_of_cons in Hin as [->|Hin]; [discriminate|]).
      by apply elem_of_nil in Hin.
Defined.

Example writeBuffer_patch_text :
  patches (db_store (snd (writeBuffer sample_env (tight_writer blk_schema)
                            blk_buffer (sample_db []))))
  = [("patches",
      "01" +:+ "01000000" +:+ "00000000" +:+ "02000000"
      +:+ "111207000000" +:+ "212207000000")].
Proof. vm_compute. reflexivity. Qed.

(** ** C4 *)

Lemma length_zero_empty (s : string) : String.length s = 0%nat <-> s = "".
Proof. destruct s; simpl; split; intros; (done || discriminate). Qed.

Lemma getValueOrThrow_absent {T} `{OptionType T} (o : Options) key :
  getValueOrThrow o key = inl (MissingOptionError key)
  <-> option_slot o !! key = None.
Proof.
  unfold getValueOrThrow. destruct (option_slot o !! key); split; try done.
Qed.

Lemma getValueOrThrow_fails {T} `{OptionType T} (o : Options) key e :
  getValueOrThrow o key = inl e ->
  e = MissingOptionError key /\ option_slot o !! key = None.
Proof.
  unfold getValueOrThrow. destruct (option_slot o !! key); [done|].
  intros [= <-]. done.
Qed.

Lemma getValueOrDefault_value {T} `{OptionType T} (o : Options) key (d : T) :
  getValueOrDefault o key d = default d (option_slot o !! key).
Proof. unfold getValueOrDefault. by destruct (option_slot o !! key). Qed.

(** Without a connection string [initialize] cannot succeed. *)
Lemma connection_needed (env : Env) : needed_option env "connection".
Proof.
  intros w Hnone w'. unfold initialize.
  destruct (getValueOrThrow (m_options w) "table") as [e|t]; simpl; [done|].
  rewrite (getValueOrDefault_value (m_options w) "connection" "").
  change (option_slot (m_options w) !! "connection")
    with (opt_strings (m_options w) !! "connection").
  rewrite Hnone. simpl. done.
Qed.

Example initialize_without_connection :
  initialize sample_env (Writer_new xyc_schema table_only_options)
  = inl (SociDriverError
           "unable to connect to database, no connection string was given!").
Proof. vm_compute. reflexivity. Qed.

(** The connection string is needed, yet its absence is reported by a
    driver error that is not a [MissingOptionError]. *)
Lemma initialize_connection_not_reported_missing :
  ~ missing_option_reported sample_env.
Proof.
  intros Hrep.
  specialize (Hrep "connection" (Writer_new xyc_schema table_only_options)
                (connection_needed sample_env) eq_refl).
  rewrite initialize_without_connection in Hrep. discriminate.
Qed.

(** C4.  [initialize] fails with [MissingOptionError "table"]
    when the table option is absent.  With a table but an absent or empty
    connection string it fails with a driver error, and when the session
    cannot be opened with a pdal error.  Otherwise it succeeds, every other
    option resolved to its value if present and to its default if absent.
    [getValueOrThrow] fails exactly when the key is absent, and then with
    [MissingOptionError] naming the key; [getValueOrDefault] always returns
    a value, the default when the key is absent. *)
Theorem initialize_resolves_options (env : Env) (w : Writer) :
  (opt_strings (m_options w) !! "table" = None ->
   initialize env w = inl (MissingOptionError "table"))
  /\ (forall t,
        opt_strings (m_options w) !! "table" = Some t ->
        default "" (opt_strings (m_options w) !! "connection") = "" ->
        initialize env w
        = inl (SociDriverError
                 "unable to connect to database, no connection string was given!"))
  /\ (forall t c what,
        opt_strings (m_options w) !! "table" = Some t ->
        opt_strings (m_options w) !! "connection" = Some c -> c <> "" ->
        env_connect env c = Some what ->
        exists msg, initialize env w = inl (PdalError msg))
  /\ (forall t c,
        opt_strings (m_options w) !! "table" = Some t ->
        opt_strings (m_options w) !! "connection" = Some c -> c <> "" ->
        env_connect env c = None ->
        exists w',
          initialize env w = inr w'
          /\ m_table_name w' = t
          /\ m_column_name w'
             = default "pa" (opt_strings (m_options w) !! "column")
          /\ m_schema_name w'
             = default "" (opt_strings (m_options w) !! "schema")
          /\ m_patch_compression_type w'
             = env_getCompressionType env
                 (default "dimensional"
                    (opt_strings (m_options w) !! "compression"))
          /\ m_overwrite w'
             = default true (opt_bools (m_options w) !! "overwrite")
          /\ m_patch_capacity w'
             = default 400 (opt_uints (m_options w) !! "capacity")
          /\ m_srid w' = default 4326 (opt_uints (m_options w) !! "srid")
          /\ m_pcid w' = default 0 (opt_uints (m_options w) !! "pcid"))
  /\ (forall key,
        (getValueOrThrow (T := string) (m_options w) key
         = inl (MissingOptionError key)
         <-> opt_strings (m_options w) !! key = None)
        /\ (forall e, getValueOrThrow (T := string) (m_options w) key = inl e ->
                      e = MissingOptionError key)
        /\ (forall d : string,
              getValueOrDefault (m_options w) key d
              = default d (opt_strings (m_options w) !! key))
        /\ (forall d : bool,
              getValueOrDefault (m_options w) key d
              = default d (opt_bools (m_options w) !! key))
        /\ (forall d : N,
              getValueOrDefault (m_options w) key d
              = default d (opt_uints (m_options w) !! key))).
Proof.
  split; [|split; [|split; [|split]]].
  - intros Hnone. unfold initialize, getValueOrThrow.
    change (option_slot (m_options w) !! "table")
      with (opt_strings (m_options w) !! "table").
    by rewrite Hnone.
  - intros t Ht Hconn. unfold initialize, getValueOrThrow.
    change (option_slot (m_options w) !! "table")
      with (opt_strings (m_options w) !! "table").
    rewrite Ht. simpl.
    rewrite (getValueOrDefault_value (m_options w) "connection" "").
    change (option_slot (m_options w) !! "connection")
      with (opt_strings (m_options w) !! "connection").
    rewrite Hconn. done.
  - intros t c what Ht Hc Hne Hconn. unfold initialize, getValueOrThrow.
    change (option_slot (m_options w) !! "table")
      with (opt_strings (m_options w) !! "table").
    rewrite Ht. simpl.
    rewrite (getValueOrDefault_value (m_options w) "connection" "").
    change (option_slot (m_options w) !! "connection")
      with (opt_strings (m_options w) !! "connection").
    rewrite Hc. simpl.
    destruct (decide (String.length c = 0%nat)) as [Hz|_];
      [by apply length_zero_empty in Hz|].
    rewrite Hconn. eexists. reflexivity.
  - intros t c Ht Hc Hne Hconn. unfold initialize, getValueOrThrow.
    change (option_slot (m_options w) !! "table")
      with (opt_strings (m_options w) !! "table").
    rewrite Ht. simpl.
    rewrite (getValueOrDefault_value (m_options w) "connection" "").
    change (option_slot (m_options w) !! "connection")
      with (opt_strings (m_options w) !! "connection").
    rewrite Hc. simpl.
    destruct (decide (String.length c = 0%nat)) as [Hz|_];
      [by apply length_zero_empty in Hz|].
    rewrite Hconn. eexists. split; [reflexivity|]. simpl.
    rewrite !getValueOrDefault_value. by repeat split.
  - intros key. split; [apply getValueOrThrow_absent|].
    split; [intros e He; by apply getValueOrThrow_fails in He as [-> _]|].
    repeat split; intros d; apply getValueOrDefault_value.
Qed.

Lemma initialize_resolves_options_witness :
  exists w',
    initialize sample_env (Writer_new xyc_schema sample_options) = inr w'
    /\ m_table_name w' = "patches"
    /\ m_column_name w' = "pa"
    /\ m_patch_capacity w' = 400.
Proof.
  destruct (initialize_resolves_options sample_env
              (Writer_new xyc_schema sample_options))
    as (_ & _ & _ & Hok & _).
  destruct (Hok "patches" "dbname=pc")
    as (w' & Hrun & Ht & Hc & _ & _ & _ & Hcap & _);
    [reflexivity | reflexivity | discriminate | reflexivity |].
  exists w'. repeat split; assumption.
Defined.

(** ** Iterators *)

(** The points a read places: as many as requested unless the stage ends. *)
Lemma placed_length (it : StageIterator) (requested : N) :
  m_index it <= totalAvailablePoints (m_stage it) ->
  N.of_nat (length (take (N.to_nat requested)
                         (drop (N.to_nat (m_index it))
                               (stage_points (m_stage it)))))
  = N.min requested (totalAvailablePoints (m_stage it) - m_index it).
Proof.
  unfold totalAvailablePoints. intros Hidx.
  rewrite length_take, length_drop. lia.
Qed.

(** The value of a read the source answers. *)
Lemma read_delivers (it : StageIterator) (buffer : list Point) :
  m_index it <= totalAvailablePoints (m_stage it) ->
  totalAvailablePoints (m_stage it) < 2 ^ 64 ->
  stage_delivers (m_stage it) (m_index it)
                 (N.min (m_chunkSize it) (N.of_nat (length buffer))) = true ->
  exists placed,
    placed = take (N.to_nat (N.min (m_chunkSize it) (N.of_nat (length buffer))))
                  (drop (N.to_nat (m_index it)) (stage_points (m_stage it)))
    /\ N.of_nat (length placed)
       = N.min (N.min (m_chunkSize it) (N.of_nat (length buffer)))
               (totalAvailablePoints (m_stage it) - m_index it)
    /\ read it buffer
       = (inr (N.of_nat (length placed), placed ++ drop (length placed) buffer),
          mkStageIterator (m_stage it) (m_index it + N.of_nat (length placed))
                          (m_chunkSize it)).
Proof.
  intros Hidx Htot Hok. eexists. split; [reflexivity|].
  pose proof (placed_length it
                (N.min (m_chunkSize it) (N.of_nat (length buffer))) Hidx) as Hlen.
  split; [exact Hlen|].
  unfold read. rewrite Hok. unfold u64.
  rewrite N.mod_small; [reflexivity|].
  rewrite Hlen. lia.
Qed.

(** ** C2 *)

(** C2. A read asks for [min(chunkSize, capacity)] points.  When the
    source answers, the count returned is the number of points placed: the
    request, or what is left of the stage when that is less, so a short
    count means the end of the stream; the first slots of the buffer hold
    the points from the old index on, the others are untouched, and the
    index has advanced by exactly the count.  When the source fails, the
    read fails with [ReadError] and the iterator is unchanged.  Stated for
    an iterator inside its stage, whose size fits the 64-bit index. *)
Theorem read_advances_by_count (it : StageIterator) (buffer : list Point) :
  m_index it <= totalAvailablePoints (m_stage it) ->
  totalAvailablePoints (m_stage it) < 2 ^ 64 ->
  (stage_delivers (m_stage it) (m_index it)
                  (N.min (m_chunkSize it) (N.of_nat (length buffer))) = true ->
   exists numRead filled it',
     read it buffer = (inr (numRead, filled), it')
     /\ numRead = N.min (N.min (m_chunkSize it) (N.of_nat (length buffer)))
                        (totalAvailablePoints (m_stage it) - m_index it)
     /\ (numRead < N.min (m_chunkSize it) (N.of_nat (length buffer)) ->
         atEnd it' = true)
     /\ m_index it' = m_index it + numRead
     /\ m_stage it' = m_stage it /\ m_chunkSize it' = m_chunkSize it
     /\ length filled = length buffer
     /\ (forall k : nat, N.of_nat k < numRead ->
           filled !! k
           = stage_points (m_stage it) !! (N.to_nat (m_index it) + k)%nat)
     /\ (forall k : nat, numRead <= N.of_nat k -> filled !! k = buffer !! k))
  /\ (stage_delivers (m_stage it) (m_index it)
                     (N.min (m_chunkSize it) (N.of_nat (length buffer))) = false ->
      read it buffer = (inl ReadError, it)).
Proof.
  intros Hidx Htot. split.
  - intros Hok.
    destruct (read_delivers it buffer Hidx Htot Hok)
      as (placed & Hplaced & Hlen & Hrun).
    exists (N.of_nat (length placed)), (placed ++ drop (length placed) buffer).
    eexists. split; [exact Hrun|]. simpl.
    split; [exact Hlen|].
    split; [intros Hshort; unfold atEnd; simpl; apply N.leb_le; lia|].
    split; [reflexivity|]. split; [reflexivity|]. split; [reflexivity|].
    split; [rewrite length_app, length_drop; lia|].
    split.
    + intros k Hk. rewrite lookup_app_l by lia.
      rewrite Hplaced, lookup_take_lt by lia. by rewrite lookup_drop.
    + intros k Hk. rewrite lookup_app_r by lia.
      rewrite lookup_drop. f_equal. lia.
  - intros Hfail. unfold read. by rewrite Hfail.
Qed.

Lemma read_advances_by_count_witness :
  exists filled it',
    read (mkStageIterator steady_stage 3 4) [[]; []; []; []]
    = (inr (2, filled), it')
    /\ m_index it' = 5 /\ atEnd it' = true.
Proof.
  destruct (read_advances_by_count (mkStageIterator steady_stage 3 4)
              [[]; []; []; []]) as [Hok _].
  - vm_compute. discriminate.
  - vm_compute. reflexivity.
  - destruct (Hok eq_refl)
      as (numRead & filled & it' & Hrun & Hn & Hend & Hidx & _).
    vm_compute in Hn. subst numRead.
    exists filled, it'. split; [exact Hrun|]. split; [exact Hidx|].
    apply Hend. vm_compute. reflexivity.
Defined.

Example read_failing_source :
  read (mkStageIterator failing_stage 2 4) [[]; []; []; []]
  = (inl ReadError, mkStageIterator failing_stage 2 4).
Proof. vm_compute. reflexivity. Qed.

(** ** C6 *)





(** With a chunk size of zero every read asks for no point and places
    none, so the default skip passes nothing: asked to skip three of the
    five points, it returns 0 and the iterator is still at the start. *)
Example skip_with_zero_chunk :
  skip (mkStageIterator steady_stage 0 0) 3
  = (inr 0, mkStageIterator steady_stage 0 0)
  /\ atEnd (mkStageIterator steady_stage 0 0) = false.
Proof. vm_compute. split; reflexivity. Qed.


(** ** The drive loop *)

Section DriveLoopFacts.
Context {W : Type} `{WriterContract W}.


End DriveLoopFacts.

(** ** C3 *)



(** With a chunk size of zero the first read places nothing and the cycle
    takes that for the end of the stream: [write(0)] returns 0 with all five
    points of the stage unread. *)
Example write_with_zero_chunk :
  let '(r, st) := write (H := counting_writer) 0
                        (mkStageIterator steady_stage 0 0) 0 in
  r = inr 0
  /\ ds_calls st = [CallWriteBegin 0; CallRead 0; CallWriteEnd 0]
  /\ atEnd (ds_iterator st) = false.
Proof. vm_compute. repeat split; reflexivity. Qed.


(** Ten points asked of a five-point stage, three at a time. *)
Example write_target_beyond_stage :
  let '(r, st) := write (H := counting_writer) 0
                        (mkStageIterator steady_stage 0 3) 10 in
  r = inr 5
  /\ ds_calls st
     = [CallWriteBegin 10;
        CallRead 3; CallWriteBufferBegin; CallWriteBuffer 3; CallWriteBufferEnd;
        CallRead 2; CallWriteBufferBegin; CallWriteBuffer 2; CallWriteBufferEnd;
        CallRead 0;
        CallWriteEnd 5].
Proof. vm_compute. split; reflexivity. Qed.

(** A buffer write that fails partway: the loop stops, [writeEnd] is still
    called, and the error is what [write] returns. *)
Example write_failing_partway :
  let '(r, st) := write (H := fragile_writer) 0
                        (mkStageIterator steady_stage 0 2) 0 in
  r = inl WriteError
  /\ ds_calls st
     = [CallWriteBegin 0;
        CallRead 2; CallWriteBufferBegin; CallWriteBuffer 2; CallWriteBufferEnd;
        CallRead 2; CallWriteBufferBegin;
        CallWriteEnd 2].
Proof. vm_compute. split; reflexivity. Qed.

(** * Further properties of the writer *)

(** ** PackSchema: what it keeps and when it fails *)

Lemma stamp_erases (p : N) (l : list Dimension) :
  stamp 0 <$> stamp_wrap p l = stamp 0 <$> l.
Proof.
  revert p. induction l as [|d l IH]; intros p; [done|].
  cbn [stamp_wrap]. rewrite !fmap_cons, IH. done.
Qed.

Lemma stamp_wrap_parent (p : N) (l : list Dimension) :
  Forall (fun d => dim_parent d = nil_uuid) (stamp_wrap p l).
Proof.
  revert p. induction l as [|d l IH]; intros p; simpl; constructor; auto.
Qed.

Lemma stamp_wrap_length (p : N) (l : list Dimension) :
  length (stamp_wrap p l) = length l.
Proof. revert p. induction l as [|d l IH]; intros p; simpl; auto. Qed.

(** A successful pack is the stamped run of the survivors. *)
Lemma PackSchema_inr (s c : Schema) :
  PackSchema s = inr c ->
  NoDup (identity <$> packed s) /\ c = stamp_wrap 0 (packed s).
Proof.
  intros Hrun. unfold PackSchema in Hrun.
  pose proof (PackSchema_loop_inv s 0 [] c Hrun (NoDup_nil_2)) as Hnd.
  rewrite PackSchema_loop_ok in Hrun by exact Hnd.
  simpl in Hrun, Hnd. by injection Hrun as <-.
Qed.

(** The only way the loop fails is a repeated identity. *)
Lemma PackSchema_loop_inl idx : forall position clean e,
  PackSchema_loop idx position clean = inl e -> e = DuplicateDimensionError.
Proof.
  induction idx as [|d idx IH]; intros position clean e Hrun;
    simpl in Hrun; [discriminate|].
  destruct (isIgnored d); simpl in Hrun; [by eapply IH|].
  unfold appendDimension in Hrun.
  destruct (decide _); simpl in Hrun; [by injection Hrun as <-|by eapply IH].
Qed.

Lemma packed_idem (s : Schema) : packed (packed s) = packed s.
Proof. apply packed_of_kept, packed_all_kept. Qed.

(** X1. Packing changes nothing but position and parent: the packed schema
    has as many dimensions as survive, in the same order, each equal to its
    original once position and parent are put aside (name, field, type,
    byte size, scale and offset are kept), each with its parent cleared and
    none of them ignored. *)
Theorem PackSchema_keeps_attributes (s c : Schema) :
  PackSchema s = inr c ->
  length c = length (packed s)
  /\ stamp 0 <$> c = stamp 0 <$> packed s
  /\ Forall (fun d => dim_parent d = nil_uuid) c
  /\ Forall (fun d => isIgnored d = false) c.
Proof.
  intros Hrun. apply PackSchema_inr in Hrun as [_ ->].
  split; [apply stamp_wrap_length|].
  split; [apply stamp_erases|].
  split; [apply stamp_wrap_parent|].
  apply stamp_wrap_kept, packed_all_kept.
Qed.

Lemma PackSchema_keeps_attributes_witness :
  exists c,
    PackSchema retyped_schema = inr c
    /\ dim_name <$> c = ["X"; "Y"]
    /\ Forall (fun d => dim_parent d = nil_uuid) c.
Proof.
  assert (Hrun : PackSchema retyped_schema
                 = inr (stamp_wrap 0 (packed retyped_schema)))
    by (vm_compute; reflexivity).
  destruct (PackSchema_keeps_attributes _ _ Hrun) as (_ & _ & Hparent & _).
  eexists. split; [exact Hrun|]. split; [vm_compute; reflexivity|exact Hparent].
Defined.

(** X2. Packing succeeds exactly when the surviving dimensions have
    pairwise different identities, and otherwise fails with
    [DuplicateDimensionError]; ignored dimensions never matter, a schema
    packs as its survivors do. *)
Theorem PackSchema_fails_on_repeated_identity (s : Schema) :
  ((exists c, PackSchema s = inr c) <-> NoDup (identity <$> packed s))
  /\ (forall e, PackSchema s = inl e -> e = DuplicateDimensionError)
  /\ PackSchema s = PackSchema (packed s).
Proof.
  assert (Hiff : forall t, (exists c, PackSchema t = inr c)
                           <-> NoDup (identity <$> packed t)).
  { intros t. split.
    - intros [c Hrun]. by apply PackSchema_inr in Hrun as [Hnd _].
    - intros Hnd. eexists. unfold PackSchema.
      rewrite PackSchema_loop_ok; [reflexivity|exact Hnd]. }
  assert (Hinl : forall t e, PackSchema t = inl e -> e = DuplicateDimensionError)
    by (intros t e; apply PackSchema_loop_inl).
  split; [apply Hiff|]. split; [apply Hinl|].
  destruct (PackSchema s) as [e|c] eqn:Hs.
  - destruct (PackSchema (packed s)) as [e'|c'] eqn:Hp.
    + by rewrite (Hinl _ _ Hs), (Hinl _ _ Hp).
    + assert (Hex : exists c, PackSchema s = inr c).
      { apply Hiff. rewrite <- (packed_idem s). apply Hiff. by exists c'. }
      destruct Hex as [c Hc]. congruence.
  - apply PackSchema_inr in Hs as [Hnd ->].
    unfold PackSchema. rewrite PackSchema_loop_ok.
    + simpl. by rewrite packed_idem.
    + simpl. by rewrite packed_idem.
Qed.

Example PackSchema_repeated_identity :
  PackSchema [ mkDimension "X" 1 Int32 4 false 0 nil_uuid 1 0;
               mkDimension "X" 1 Int32 4 false 1 nil_uuid 100 0 ]
  = inl DuplicateDimensionError.
Proof. vm_compute. reflexivity. Qed.

(** ** PackPointData: every output byte, the plain copy, the overflow *)

(** Every offset inside the packed record falls in the byte range of one
    surviving dimension. *)
Lemma packed_offset_tiling (idx : Schema) : forall q,
  q < Schema_getByteSize (packed idx) ->
  exists (k : nat) d j,
    idx !! k = Some d /\ isIgnored d = false /\ j < getByteSize d
    /\ q = Schema_getByteSize (packed (take k idx)) + j.
Proof.
  induction idx as [|d0 idx IH]; intros q Hq.
  - unfold packed in Hq. simpl in Hq. lia.
  - destruct (isIgnored d0) eqn:Hd0.
    + rewrite (packed_cons_drop _ _ Hd0) in Hq.
      destruct (IH q Hq) as (k & d & j & Hk & Hd & Hj & ->).
      exists (S k), d, j. repeat split; try done.
      by rewrite firstn_cons, (packed_cons_drop _ _ Hd0).
    + rewrite (packed_cons_keep _ _ Hd0), Schema_getByteSize_cons in Hq.
      destruct (decide (q < getByteSize d0)) as [Hlt|Hge].
      * exists 0%nat, d0, q. repeat split; try done.
      * destruct (IH (q - getByteSize d0)) as (k & d & j & Hk & Hd & Hj & Hq');
          [lia|].
        exists (S k), d, j. repeat split; try done.
        rewrite firstn_cons, (packed_cons_keep _ _ Hd0), Schema_getByteSize_cons.
        lia.
Qed.

(** The packed output, byte by byte (the shared form of the packing
    theorem). *)
Lemma PackPointData_places (buffer : PointBuffer) :
  (N.to_nat (pb_numPoints buffer * Schema_getByteSize (pb_schema buffer))
     <= length (pb_data buffer))%nat ->
  Schema_getByteSize (packed (pb_schema buffer)) < 2 ^ 32 ->
  pb_numPoints buffer * Schema_getByteSize (packed (pb_schema buffer)) < 2 ^ 32 ->
  exists out,
    PackPointData buffer
      = Some (out,
              pb_numPoints buffer * Schema_getByteSize (packed (pb_schema buffer)),
              Schema_getByteSize (packed (pb_schema buffer)))
    /\ length out
        = N.to_nat (pb_numPoints buffer
                    * Schema_getByteSize (packed (pb_schema buffer)))
    /\ forall p (k : nat) d j,
         p < pb_numPoints buffer ->
         pb_schema buffer !! k = Some d -> isIgnored d = false ->
         j < getByteSize d ->
         out !! N.to_nat
                  (p * Schema_getByteSize (packed (pb_schema buffer))
                   + Schema_getByteSize (packed (take k (pb_schema buffer)))
                   + j)
         = pb_data buffer
             !! N.to_nat (p * Schema_getByteSize (pb_schema buffer)
                          + Schema_getByteSize (take k (pb_schema buffer))
                          + j).
Proof.
  intros Hdata HP Hlen.
  unfold PackPointData, getSchema, getNumPoints.
  rewrite packed_byte_size_loop_sum by lia. rewrite N.add_0_l.
  unfold u32. rewrite N.mod_small by lia.
  set (P := Schema_getByteSize (packed (pb_schema buffer))) in *.
  set (n := pb_numPoints buffer) in *.
  destruct (pack_points_ok buffer (N.to_nat n) 0
              (replicate (N.to_nat (n * P)) x00) 0)
    as (out & Hrun & Hlen' & _ & Hcopy).
  { rewrite N2Nat.id, N.add_0_l. exact Hdata. }
  { rewrite length_replicate, N2Nat.id. fold P. lia. }
  rewrite Hrun. exists out.
  split; [reflexivity|].
  split; [by rewrite Hlen', length_replicate|].
  intros p k d j Hp Hk Hd Hj.
  specialize (Hcopy p k d j). rewrite N2Nat.id in Hcopy.
  specialize (Hcopy Hp Hk Hd Hj). fold P in Hcopy.
  rewrite !N.add_0_l in Hcopy. exact Hcopy.
Qed.

(** X3. Nothing but surviving bytes reaches the output: under the
    conditions of the packing theorem every byte of the output, at any
    index [q] below its length, is the byte some surviving dimension has
    in the buffer record of point [q / packedSize]. *)
Theorem PackPointData_output_from_survivors (buffer : PointBuffer) :
  (N.to_nat (pb_numPoints buffer * Schema_getByteSize (pb_schema buffer))
     <= length (pb_data buffer))%nat ->
  Schema_getByteSize (packed (pb_schema buffer)) < 2 ^ 32 ->
  pb_numPoints buffer * Schema_getByteSize (packed (pb_schema buffer)) < 2 ^ 32 ->
  exists out len size,
    PackPointData buffer = Some (out, len, size)
    /\ forall q,
         q < pb_numPoints buffer * Schema_getByteSize (packed (pb_schema buffer)) ->
         exists (k : nat) d j,
           pb_schema buffer !! k = Some d /\ isIgnored d = false
           /\ j < getByteSize d
           /\ q mod Schema_getByteSize (packed (pb_schema buffer))
              = Schema_getByteSize (packed (take k (pb_schema buffer))) + j
           /\ out !! N.to_nat q
              = pb_data buffer
                  !! N.to_nat
                       (q / Schema_getByteSize (packed (pb_schema buffer))
                        * Schema_getByteSize (pb_schema buffer)
                        + Schema_getByteSize (take k (pb_schema buffer)) + j).
Proof.
  intros Hdata HP Hlen.
  destruct (PackPointData_places buffer Hdata HP Hlen) as (out & Hrun & _ & Hcopy).
  eexists out, _, _. split; [exact Hrun|].
  intros q Hq.
  set (P := Schema_getByteSize (packed (pb_schema buffer))) in *.
  assert (HP0 : P <> 0) by lia.
  pose proof (N.mod_upper_bound q P HP0) as Hmod.
  pose proof (N.div_mod q P HP0) as Hdm.
  destruct (packed_offset_tiling (pb_schema buffer) (q mod P) Hmod)
    as (k & d & j & Hk & Hd & Hj & Hoff).
  exists k, d, j. repeat split; try done.
  assert (Hp : q / P < pb_numPoints buffer).
  { apply N.Div0.div_lt_upper_bound. lia. }
  rewrite <- (Hcopy (q / P) k d j Hp Hk Hd Hj).
  f_equal. f_equal. lia.
Qed.

Lemma PackPointData_output_from_survivors_witness :
  exists out, PackPointData icr_buffer = Some (out, 6, 3)
              /\ out !! 4%nat = pb_data icr_buffer !! 5%nat.
Proof.
  destruct (PackPointData_output_from_survivors icr_buffer)
    as (out & len & size & Hrun & Hfrom).
  - vm_compute. lia.
  - vm_compute. reflexivity.
  - vm_compute. reflexivity.
  - assert (Hval : PackPointData icr_buffer
                   = Some ([x11; x12; x01; x21; x22; x02], 6, 3))
      by (vm_compute; reflexivity).
    rewrite Hval in Hrun. injection Hrun as <- <- <-.
    eexists. split; [reflexivity|].
    destruct (Hfrom 4) as (k & d & j & _); [vm_compute; reflexivity|].
    vm_compute. reflexivity.
Defined.

(** X4. When no dimension of the schema is ignored, packing is a plain
    copy: the output is the first [numPoints] records of the buffer,
    unchanged. *)
Theorem PackPointData_plain_copy (buffer : PointBuffer) :
  Forall (fun d => isIgnored d = false) (pb_schema buffer) ->
  (N.to_nat (pb_numPoints buffer * Schema_getByteSize (pb_schema buffer))
     <= length (pb_data buffer))%nat ->
  Schema_getByteSize (pb_schema buffer) < 2 ^ 32 ->
  pb_numPoints buffer * Schema_getByteSize (pb_schema buffer) < 2 ^ 32 ->
  PackPointData buffer
  = Some (take (N.to_nat (pb_numPoints buffer
                          * Schema_getByteSize (pb_schema buffer)))
               (pb_data buffer),
          pb_numPoints buffer * Schema_getByteSize (pb_schema buffer),
          Schema_getByteSize (pb_schema buffer)).
Proof.
  intros Hkept Hdata HP Hlen.
  pose proof (packed_of_kept _ Hkept) as Hpk.
  destruct (PackPointData_places buffer) as (out & Hrun & Hout & Hcopy);
    rewrite ?Hpk; try assumption.
  rewrite Hpk in Hrun, Hout, Hcopy. rewrite Hrun. do 3 f_equal.
  set (R := Schema_getByteSize (pb_schema buffer)) in *.
  set (n := pb_numPoints buffer) in *.
  apply list_eq. intros i.
  destruct (decide (i < N.to_nat (n * R))%nat) as [Hi|Hi].
  - rewrite lookup_take_lt by exact Hi.
    assert (HR0 : R <> 0) by lia.
    pose proof (N.mod_upper_bound (N.of_nat i) R HR0) as Hmod.
    pose proof (N.div_mod (N.of_nat i) R HR0) as Hdm.
    assert (Hmod' : N.of_nat i mod R < Schema_getByteSize (packed (pb_schema buffer)))
      by (rewrite Hpk; exact Hmod).
    destruct (packed_offset_tiling (pb_schema buffer) (N.of_nat i mod R) Hmod')
      as (k & d & j & Hk & Hd & Hj & Hoff).
    assert (Htk : packed (take k (pb_schema buffer)) = take k (pb_schema buffer)).
    { apply packed_of_kept. by apply Forall_take. }
    rewrite Htk in Hoff.
    assert (Hp : N.of_nat i / R < n) by (apply N.Div0.div_lt_upper_bound; lia).
    specialize (Hcopy (N.of_nat i / R) k d j Hp Hk Hd Hj).
    rewrite Htk in Hcopy.
    replace (N.to_nat
               (N.of_nat i / R * R
                + Schema_getByteSize (take k (pb_schema buffer)) + j))
      with i in Hcopy by lia.
    exact Hcopy.
  - rewrite !lookup_ge_None_2; [done| |lia].
    rewrite length_take. lia.
Qed.

Lemma PackPointData_plain_copy_witness :
  PackPointData blk_buffer = Some (pb_data blk_buffer, 12, 6).
Proof.
  rewrite (PackPointData_plain_copy blk_buffer).
  - vm_compute. reflexivity.
  - repeat constructor.
  - vm_compute. lia.
  - vm_compute. reflexivity.
  - vm_compute. reflexivity.
Defined.

(** ** The lengths the packing loops keep *)

Lemma memcpy_Some dst pos src n dst' :
  memcpy dst pos src n = Some dst' ->
  length dst' = length dst /\ (N.to_nat (pos + n) <= length dst)%nat.
Proof.
  unfold memcpy. destruct (decide _) as [[Hs Hd]|]; [|discriminate].
  intros [= <-]. split; [|lia].
  rewrite !length_app, !length_take, length_drop. lia.
Qed.

(** A record that is packed leaves the output as long as it was, moves the
    cursor by the packed record length, and, if anything survives, ends
    inside the output. *)
Lemma pack_record_Some idx : forall data out cur out' cur',
  pack_record idx data out cur = Some (out', cur') ->
  length out' = length out
  /\ cur' = cur + Schema_getByteSize (packed idx)
  /\ (packed idx <> [] -> (N.to_nat cur' <= length out)%nat).
Proof.
  induction idx as [|d idx IH]; intros data out cur out' cur' Hrun;
    simpl in Hrun.
  - injection Hrun as <- <-. unfold packed. simpl. rewrite N.add_0_r.
    repeat split; done.
  - destruct (isIgnored d) eqn:Hd; simpl in Hrun.
    + rewrite (packed_cons_drop _ _ Hd). by eapply IH.
    + rewrite (packed_cons_keep _ _ Hd), Schema_getByteSize_cons.
      destruct (memcpy out cur data (getByteSize d)) as [out1|] eqn:Hcp;
        [|discriminate].
      apply memcpy_Some in Hcp as [Hlen1 Hfit1].
      apply IH in Hrun as (Hlen & -> & Hend).
      split; [congruence|]. split; [lia|]. intros _.
      destruct (packed idx) as [|d1 rest] eqn:Hrest.
      * unfold Schema_getByteSize. simpl. lia.
      * rewrite <- Hlen1. apply Hend. done.
Qed.

Lemma pack_points_Some buffer idx : forall todo i out cur out' cur',
  pack_points buffer idx todo i out cur = Some (out', cur') ->
  length out' = length out
  /\ cur' = cur + N.of_nat todo * Schema_getByteSize (packed idx)
  /\ (todo <> 0%nat -> packed idx <> [] -> (N.to_nat cur' <= length out)%nat).
Proof.
  induction todo as [|todo IH]; intros i out cur out' cur' Hrun;
    simpl in Hrun.
  - injection Hrun as <- <-. repeat split; try done. lia.
  - destruct (pack_record idx (getData buffer i) out cur)
      as [[out1 cur1]|] eqn:Hrec; [|discriminate].
    apply pack_record_Some in Hrec as (Hlen1 & -> & Hend1).
    apply IH in Hrun as (Hlen & -> & Hend).
    split; [congruence|]. split; [lia|]. intros _ Hne.
    destruct todo as [|todo'].
    + rewrite N.mul_0_l, N.add_0_r. by apply Hend1.
    + rewrite <- Hlen1. by apply Hend.
Qed.

(** ** C9 *)

(** C9. A buffer of 357913942 points of three 32-bit coordinates, whatever
    bytes it holds: a record packs to 12 bytes and the packed length,
    4294967304, does not fit the 32-bit [point_data_len], which becomes 8.
    The array is allocated with those 8 bytes and the copy loop writes past
    its end: packing has no defined outcome, where an output of
    4294967304 bytes was due. *)
Theorem PackPointData_overflows_array (data : list byte) :
  packed_byte_size_loop (getSchema (xyz32_buffer data)) 0 = 12
  /\ getNumPoints (xyz32_buffer data) * 12 = 4294967304
  /\ u32 (getNumPoints (xyz32_buffer data) * 12) = 8
  /\ PackPointData (xyz32_buffer data) = None.
Proof.
  split; [reflexivity|]. split; [reflexivity|]. split; [reflexivity|].
  unfold PackPointData.
  change (packed_byte_size_loop (getSchema (xyz32_buffer data)) 0) with 12.
  change (u32 (getNumPoints (xyz32_buffer data) * 12)) with 8.
  destruct (pack_points _ _ _ _ _ _) as [[out cur]|] eqn:Hrun; [|reflexivity].
  apply pack_points_Some in Hrun as (_ & -> & Hend).
  exfalso.
  change (Schema_getByteSize (packed (getSchema (xyz32_buffer data))))
    with 12 in Hend.
  change (getNumPoints (xyz32_buffer data)) with 357913942 in Hend.
  rewrite length_replicate, N2Nat.id in Hend.
  assert (Hcopied : (N.to_nat (0 + 357913942 * 12) <= N.to_nat 8)%nat).
  { apply Hend; [lia|discriminate]. }
  lia.
Qed.

(** X5. The output length is computed in 32 bits.  When [numPoints] times
    the packed record length does not fit, the array is allocated with the
    wrapped length and the copy loop runs past its end: packing has no
    defined outcome. *)
Theorem PackPointData_length_overflow (buffer : PointBuffer) :
  0 < Schema_getByteSize (packed (pb_schema buffer)) ->
  Schema_getByteSize (packed (pb_schema buffer)) < 2 ^ 32 ->
  2 ^ 32 <= pb_numPoints buffer * Schema_getByteSize (packed (pb_schema buffer)) ->
  PackPointData buffer = None.
Proof.
  intros Hpos HP Hbig.
  unfold PackPointData, getSchema, getNumPoints.
  rewrite packed_byte_size_loop_sum by lia. rewrite N.add_0_l.
  set (P := Schema_getByteSize (packed (pb_schema buffer))) in *.
  set (n := pb_numPoints buffer) in *.
  destruct (pack_points _ _ _ _ _ _) as [[out cur]|] eqn:Hrun; [|reflexivity].
  apply pack_points_Some in Hrun as (Hlen & -> & Hend).
  rewrite length_replicate in Hlen, Hend. fold P in Hend.
  assert (Hwrap : u32 (n * P) < n * P).
  { unfold u32. pose proof (N.mod_upper_bound (n * P) (2 ^ 32)). lia. }
  exfalso.
  assert (Hn : N.to_nat n <> 0%nat) by lia.
  assert (Hne : packed (pb_schema buffer) <> []).
  { intros Hnil. unfold P in Hpos. rewrite Hnil in Hpos.
    unfold Schema_getByteSize in Hpos. simpl in Hpos. lia. }
  specialize (Hend Hn Hne). lia.
Qed.

Lemma PackPointData_length_overflow_witness :
  PackPointData blob_buffer = None.
Proof.
  apply PackPointData_length_overflow.
  - vm_compute. reflexivity.
  - vm_compute. reflexivity.
  - vm_compute. discriminate.
Defined.

(** ** Events of the session computations *)

Lemma emits_ret {A} P (a : A) : emits_only P (ret a).
Proof. intros db r db' [= <- <-]. exists []. by rewrite app_nil_r. Qed.

Lemma emits_throw {A} P (e : Error) : emits_only P (@throw A e).
Proof. intros db r db' [= <- <-]. exists []. by rewrite app_nil_r. Qed.

Lemma emits_lift {A} P (x : Result A) : emits_only P (lift x).
Proof. intros db r db' [= <- <-]. exists []. by rewrite app_nil_r. Qed.

Lemma emits_gets {A} P (f : Store -> A) : emits_only P (gets f).
Proof. intros db r db' [= <- <-]. exists []. by rewrite app_nil_r. Qed.

Lemma emits_once env P (st : Stmt) :
  P (EvStatement st) -> emits_only P (once env st).
Proof.
  intros HP db r db'. unfold once.
  destruct (env_rejects env db st); intros [= <- <-].
  - exists []. by rewrite app_nil_r.
  - exists [EvStatement st]. simpl. split; [done|]. by constructor.
Qed.

Lemma emits_bind {A B} P (m : M A) (k : A -> M B) :
  emits_only P m -> (forall a, emits_only P (k a)) -> emits_only P (bind m k).
Proof.
  intros Hm Hk db r db'. unfold bind.
  destruct (m db) as [[e|a] db1] eqn:Hrun.
  - intros [= <- <-]. by apply (Hm db (inl e) db1).
  - intros Hrun2.
    destruct (Hm _ _ _ Hrun) as (evs1 & Hlog1 & H1).
    destruct (Hk a _ _ _ Hrun2) as (evs2 & Hlog2 & H2).
    exists (evs1 ++ evs2). rewrite Hlog2, Hlog1, app_assoc.
    split; [done|]. by apply Forall_app.
Qed.

Lemma emits_session_begin P : P EvBegin -> emits_only P session_begin.
Proof.
  intros HP db r db' [= <- <-]. exists [EvBegin]. simpl.
  split; [done|]. by constructor.
Qed.

Lemma emits_session_commit P : P EvCommit -> emits_only P session_commit.
Proof.
  intros HP db r db' [= <- <-]. exists [EvCommit]. simpl.
  split; [done|]. by constructor.
Qed.

(** Walks a computation, leaving the conditions on single statements. *)
Ltac emits_step :=
  match goal with
  | |- emits_only _ (bind _ _) => apply emits_bind; [|intros ?]
  | |- emits_only _ (ret _) => apply emits_ret
  | |- emits_only _ (throw _) => apply emits_throw
  | |- emits_only _ (lift _) => apply emits_lift
  | |- emits_only _ (gets _) => apply emits_gets
  | |- emits_only _ (once _ _) => apply emits_once
  | |- emits_only _ session_begin => apply emits_session_begin
  | |- emits_only _ session_commit => apply emits_session_commit
  | |- emits_only _ (if ?c then _ else _) => destruct c
  | |- emits_only _ (match ?x with _ => _ end) => destruct x
  end.

Ltac emits_auto := repeat emits_step.

(** Successful binds, taken apart. *)
Lemma bind_inr {A B} (m : M A) (k : A -> M B) db b db' :
  bind m k db = (inr b, db') ->
  exists a db1, m db = (inr a, db1) /\ k a db1 = (inr b, db').
Proof.
  unfold bind. destruct (m db) as [[e|a] db1]; [discriminate|].
  intros Hk. by exists a, db1.
Qed.

(** ** SetupSchema: what a successful registration did *)

Lemma set_m_pcid_same (w : Writer) : set_m_pcid w (m_pcid w) = w.
Proof. by destruct w. Qed.

Lemma find_schema_app env (l1 l2 : list FormatRow) out :
  find_schema env (l1 ++ l2) out
  = match find_schema env l1 out with
    | Some p => Some p
    | None => find_schema env l2 out
    end.
Proof.
  induction l1 as [|r l1 IH]; simpl; [done|].
  by destruct (Schema_eqb _ _).
Qed.

Lemma count_pcid_nonzero (pcid : N) (s : Store) :
  count_pcid pcid s <> 0%Z ->
  exists r, r ∈ pointcloud_formats s /\ fr_pcid r = pcid.
Proof.
  unfold count_pcid. intros Hc.
  destruct (filter (fun r => fr_pcid r = pcid) (pointcloud_formats s))
    as [|r rest] eqn:Hf; [done|].
  assert (Hin : r ∈ filter (fun r => fr_pcid r = pcid) (pointcloud_formats s))
    by (rewrite Hf; left).
  apply list_elem_of_filter in Hin as [Hp Hin]. by exists r.
Qed.

Lemma count_pcid_zero (pcid : N) (s : Store) :
  count_pcid pcid s = 0%Z ->
  forall r, r ∈ pointcloud_formats s -> fr_pcid r <> pcid.
Proof.
  unfold count_pcid. intros Hc r Hin Hp.
  assert (Hf : r ∈ filter (fun r => fr_pcid r = pcid) (pointcloud_formats s))
    by (by apply list_elem_of_filter).
  destruct (filter _ _); [by apply elem_of_nil in Hf|simpl in Hc; lia].
Qed.

(** The three ways [SetupSchema] returns: the configured pcid found in the
    catalog; an equal schema found; a new entry appended. *)
Lemma SetupSchema_inr env w s srid db p w' db' :
  SetupSchema env w s srid db = (inr (p, w'), db') ->
  exists out,
    PackSchema s = inr out
    /\ w' = set_m_pcid w p
    /\ pg_tables (db_store db') = pg_tables (db_store db)
    /\ patches (db_store db') = patches (db_store db)
    /\ db_in_transaction db' = db_in_transaction db
    /\ ((m_pcid w <> 0 /\ p = m_pcid w
         /\ count_pcid p (db_store db) <> 0%Z
         /\ pointcloud_formats (db_store db') = pointcloud_formats (db_store db))
        \/ (m_pcid w = 0
            /\ find_schema env (pointcloud_formats (db_store db)) out = Some p
            /\ pointcloud_formats (db_store db')
               = pointcloud_formats (db_store db))
        \/ (m_pcid w = 0
            /\ find_schema env (pointcloud_formats (db_store db)) out = None
            /\ p = match pointcloud_formats (db_store db) with
                   | [] => 1
                   | _ :: _ => u32 (max_pcid_plus1 (db_store db))
                   end
            /\ pointcloud_formats (db_store db')
               = pointcloud_formats (db_store db)
                 ++ [mkFormatRow p srid
                       (env_to_xml env out
                          (compression_text (m_patch_compression_type w)))])).
Proof.
  unfold SetupSchema. intros Hrun.
  apply bind_inr in Hrun as (out & db0 & Hpack & Hrun).
  unfold lift in Hpack. injection Hpack as Hpack <-.
  exists out. split; [exact Hpack|].
  destruct (m_pcid w =? 0) eqn:Hz; simpl in Hrun.
  - apply N.eqb_eq in Hz.
    revert Hrun. run_m.
    destruct (env_rejects env db SelectCountFormats); [discriminate|]. simpl.
    destruct (pointcloud_formats (db_store db)) as [|r0 rows] eqn:Hrows.
    + simpl.
      destruct (env_rejects env _ (InsertFormat _ _ _)); [discriminate|].
      simpl. intros [= <- <- <-]. simpl. rewrite Hrows.
      repeat split; try done. right. right. by repeat split.
    + replace (0 <? Z.of_nat (length (r0 :: rows)))%Z with true
        by (symmetry; apply Z.ltb_lt; simpl; lia).
      destruct (env_rejects env _ SelectFormats); [discriminate|]. simpl.
      rewrite Hrows.
      destruct (find_schema env (r0 :: rows) out) as [pcid|] eqn:Hfind.
      * intros [= <- <- <-]. simpl. rewrite Hrows.
        repeat split; try done. right. left. by repeat split.
      * replace (Z.of_nat (length (r0 :: rows)) =? 0)%Z with false
          by (symmetry; apply Z.eqb_neq; simpl; lia).
        destruct (env_rejects env _ SelectMaxPcidPlus1); [discriminate|]. simpl.
        destruct (env_rejects env _ (InsertFormat _ _ _)); [discriminate|].
        simpl. intros [= <- <- <-]. simpl. rewrite Hrows.
        repeat split; try done. right. right.
        unfold max_pcid_plus1. simpl. rewrite Hrows. by repeat split.
  - apply N.eqb_neq in Hz.
    revert Hrun. run_m.
    destruct (env_rejects env db (SelectCountFormatsWhere (m_pcid w)));
      [discriminate|]. simpl.
    destruct (count_pcid (m_pcid w) (db_store db) =? 0)%Z eqn:Hc;
      [discriminate|].
    apply Z.eqb_neq in Hc.
    intros [= <- <- <-]. simpl.
    split; [by rewrite set_m_pcid_same|].
    repeat split; try done. left. by repeat split.
Qed.

(** A failed registration leaves the stored data as it was. *)
Lemma SetupSchema_inl env w s srid db e db' :
  SetupSchema env w s srid db = (inl e, db') ->
  db_store db' = db_store db
  /\ db_in_transaction db' = db_in_transaction db.
Proof.
  unfold SetupSchema. run_m.
  destruct (PackSchema s) as [e0|out]; simpl; [by intros [= <- <-]|].
  destruct (m_pcid w =? 0); simpl.
  - destruct (env_rejects env db SelectCountFormats); [by intros [= <- <-]|].
    simpl.
    destruct (pointcloud_formats (db_store db)) as [|r0 rows] eqn:Hrows.
    + simpl.
      destruct (env_rejects env _ (InsertFormat _ _ _)); [|discriminate].
      intros [= <- <-]. by destruct db as [[] ? ?].
    + replace (0 <? Z.of_nat (length (r0 :: rows)))%Z with true
        by (symmetry; apply Z.ltb_lt; simpl; lia).
      destruct (env_rejects env _ SelectFormats);
        [intros [= <- <-]; by destruct db as [[] ? ?]|].
      simpl. rewrite Hrows.
      destruct (find_schema env (r0 :: rows) out); [discriminate|].
      replace (Z.of_nat (length (r0 :: rows)) =? 0)%Z with false
        by (symmetry; apply Z.eqb_neq; simpl; lia).
      destruct (env_rejects env _ SelectMaxPcidPlus1);
        [intros [= <- <-]; by destruct db as [[] ? ?]|].
      simpl.
      destruct (env_rejects env _ (InsertFormat _ _ _)); [|discriminate].
      intros [= <- <-]. by destruct db as [[] ? ?].
  - destruct (env_rejects env db (SelectCountFormatsWhere (m_pcid w)));
      [by intros [= <- <-]|].
    simpl.
    destruct (count_pcid (m_pcid w) (db_store db) =? 0)%Z; [|discriminate].
    intros [= <- <-]. by destruct db as [[] ? ?].
Qed.

(** X6. Registering a schema never changes or removes a catalog entry:
    whatever the outcome, and whatever the backend refuses, the catalog
    afterwards is the catalog before, or the catalog before with one entry
    appended; a failed registration appends none; table names and patches
    are not touched. *)
Theorem SetupSchema_catalog_only_grows (env : Env) (w : Writer) (s : Schema)
    (srid : N) (db : Db) :
  forall r db',
    SetupSchema env w s srid db = (r, db') ->
    (pointcloud_formats (db_store db') = pointcloud_formats (db_store db)
     \/ (exists p w' row,
           r = inr (p, w')
           /\ fr_pcid row = p /\ fr_srid row = srid
           /\ pointcloud_formats (db_store db')
              = pointcloud_formats (db_store db) ++ [row]))
    /\ pg_tables (db_store db') = pg_tables (db_store db)
    /\ patches (db_store db') = patches (db_store db).
Proof.
  intros [e|[p w']] db' Hrun.
  - apply SetupSchema_inl in Hrun as [-> _]. split; [by left|by split].
  - apply SetupSchema_inr in Hrun
      as (out & _ & _ & Ht & Hp & _
          & [(_ & _ & _ & Hf)|[(_ & _ & Hf)|(_ & _ & _ & Hf)]]).
    + split; [by left|by split].
    + split; [by left|by split].
    + split; [|by split]. right.
      exists p, w',
        (mkFormatRow p srid
           (env_to_xml env out
              (compression_text (m_patch_compression_type w)))).
      by repeat split.
Qed.

Lemma SetupSchema_catalog_only_grows_witness :
  exists row,
    pointcloud_formats
      (db_store (snd (SetupSchema sample_env (sample_writer xyc_schema 0)
                        icr_schema 4326
                        (sample_db [mkFormatRow 4 4326 "xy"]))))
    = [mkFormatRow 4 4326 "xy"; row]
    /\ fr_pcid row = 5.
Proof.
  destruct (SetupSchema_catalog_only_grows sample_env
              (sample_writer xyc_schema 0) icr_schema 4326
              (sample_db [mkFormatRow 4 4326 "xy"])
              (inr (5, sample_writer xyc_schema 5))
              (snd (SetupSchema sample_env (sample_writer xyc_schema 0)
                      icr_schema 4326 (sample_db [mkFormatRow 4 4326 "xy"]))))
    as [[Hsame|(p & w' & row & Hr & Hp & _ & Hgrown)] _].
  - vm_compute. reflexivity.
  - vm_compute in Hsame. discriminate.
  - injection Hr as <- _. exists row. split; [exact Hgrown|exact Hp].
Defined.

(** X7. With a pcid configured, the catalog is only consulted: when no
    entry has that pcid the registration fails with a pdal error, when one
    has it the configured pcid is returned; neither way is anything
    inserted, and the schemas are not compared. *)
Theorem SetupSchema_configured_pcid_lookup (env : Env) (w : Writer)
    (s : Schema) (srid : N) (db : Db) :
  m_pcid w <> 0 ->
  NoDup (identity <$> packed s) ->
  env_rejects env db (SelectCountFormatsWhere (m_pcid w)) = false ->
  exists db',
    pointcloud_formats (db_store db') = pointcloud_formats (db_store db)
    /\ (((forall r, r ∈ pointcloud_formats (db_store db) ->
                    fr_pcid r <> m_pcid w)
         /\ exists msg, SetupSchema env w s srid db = (inl (PdalError msg), db'))
        \/ ((exists r, r ∈ pointcloud_formats (db_store db)
                       /\ fr_pcid r = m_pcid w)
            /\ SetupSchema env w s srid db = (inr (m_pcid w, w), db'))).
Proof.
  intros Hpcid Hnd Hacc.
  assert (Hpack : PackSchema s = inr (stamp_wrap 0 (packed s))).
  { unfold PackSchema. by rewrite PackSchema_loop_ok. }
  unfold SetupSchema. run_m. rewrite Hpack. simpl.
  apply N.eqb_neq in Hpcid. rewrite Hpcid. simpl. rewrite Hacc. simpl.
  exists (mkDb (db_store db) (db_in_transaction db)
               (db_log db ++ [EvStatement (SelectCountFormatsWhere (m_pcid w))])).
  split; [reflexivity|].
  destruct (count_pcid (m_pcid w) (db_store db) =? 0)%Z eqn:Hc.
  - apply Z.eqb_eq in Hc. left. split.
    + by apply count_pcid_zero.
    + eexists. reflexivity.
  - apply Z.eqb_neq in Hc. right. split.
    + by apply count_pcid_nonzero.
    + reflexivity.
Qed.

Lemma SetupSchema_configured_pcid_lookup_witness :
  exists msg db',
    SetupSchema sample_env (sample_writer xyc_schema 7) xyc_schema 4326
      (sample_db [mkFormatRow 1 4326 "xy"])
    = (inl (PdalError msg), db')
    /\ pointcloud_formats (db_store db') = [mkFormatRow 1 4326 "xy"].
Proof.
  destruct (SetupSchema_configured_pcid_lookup sample_env
              (sample_writer xyc_schema 7) xyc_schema 4326
              (sample_db [mkFormatRow 1 4326 "xy"]))
    as (db' & Hsame & [[_ [msg Hrun]]|[(r & Hin & Hid) _]]).
  - vm_compute. discriminate.
  - apply (bool_decide_unpack _). vm_compute. exact I.
  - reflexivity.
  - exists msg, db'. split; [exact Hrun|exact Hsame].
  - exfalso. apply list_elem_of_singleton in Hin as ->.
    vm_compute in Hid. discriminate.
Defined.

(** The unconfigured registration when an equal schema is stored. *)
Lemma SetupSchema_finds env w s srid db out p :
  m_pcid w = 0 ->
  PackSchema s = inr out ->
  accepts_all env ->
  find_schema env (pointcloud_formats (db_store db)) out = Some p ->
  exists db',
    SetupSchema env w s srid db = (inr (p, set_m_pcid w p), db')
    /\ pointcloud_formats (db_store db') = pointcloud_formats (db_store db).
Proof.
  intros Hpcid Hpack Hacc Hfind.
  unfold SetupSchema. run_m. rewrite Hpack, Hpcid. simpl.
  rewrite Hacc. simpl.
  destruct (pointcloud_formats (db_store db)) as [|r0 rows] eqn:Hrows;
    [discriminate|].
  replace (0 <? Z.of_nat (length (r0 :: rows)))%Z with true
    by (symmetry; apply Z.ltb_lt; simpl; lia).
  rewrite Hacc. simpl. rewrite Hrows, Hfind.
  eexists. split; [reflexivity|]. simpl. by rewrite Hrows.
Qed.

Lemma u32_idem (n : N) : u32 (u32 n) = u32 n.
Proof. unfold u32. apply N.Div0.mod_mod. Qed.

(** X8. Registration is shared between writers: once a writer without a
    configured pcid has registered a schema, any other writer without a
    configured pcid that registers the same schema obtains the same pcid
    and inserts nothing, provided the backend accepts the statements and
    the XML written for the schema reads back as an equal schema. *)
Theorem SetupSchema_second_writer_reuses (env : Env) (w1 w2 : Writer)
    (s : Schema) (srid1 srid2 : N) (db db1 : Db) (p : N) (w1' : Writer)
    (out : Schema) :
  m_pcid w1 = 0 -> m_pcid w2 = 0 ->
  accepts_all env ->
  PackSchema s = inr out ->
  xml_round_trip env out ->
  SetupSchema env w1 s srid1 db = (inr (p, w1'), db1) ->
  exists db2,
    SetupSchema env w2 s srid2 db1 = (inr (p, set_m_pcid w2 p), db2)
    /\ pointcloud_formats (db_store db2) = pointcloud_formats (db_store db1).
Proof.
  intros Hp1 Hp2 Hacc Hpack Hxml Hrun.
  apply SetupSchema_inr in Hrun
    as (out' & Hpack' & _ & _ & _ & _ & Hcases).
  assert (out' = out) as -> by congruence.
  apply (SetupSchema_finds env w2 s srid2 db1 out p Hp2 Hpack Hacc).
  destruct Hcases as [(Hne & _)|[(_ & Hfind & Hf)|(_ & Hfind & Hfresh & Hf)]].
  - done.
  - by rewrite Hf.
  - rewrite Hf, find_schema_app, Hfind. simpl.
    unfold xml_round_trip in Hxml. rewrite Hxml. f_equal.
    rewrite Hfresh. destruct (pointcloud_formats (db_store db)); [done|].
    apply u32_idem.
Qed.

Lemma SetupSchema_second_writer_reuses_witness :
  exists db2,
    SetupSchema faithful_env (Writer_new xyc_schema sample_options) xyc_schema
      4326
      (snd (SetupSchema faithful_env (sample_writer xyc_schema 0) xyc_schema
              4326 (sample_db [])))
    = (inr (1, set_m_pcid (Writer_new xyc_schema sample_options) 1), db2)
    /\ length (pointcloud_formats (db_store db2)) = 1%nat.
Proof.
  destruct (SetupSchema_second_writer_reuses faithful_env
              (sample_writer xyc_schema 0)
              (Writer_new xyc_schema sample_options) xyc_schema 4326 4326
              (sample_db [])
              (snd (SetupSchema faithful_env (sample_writer xyc_schema 0)
                      xyc_schema 4326 (sample_db [])))
              1 (sample_writer xyc_schema 1)
              (stamp_wrap 0 (packed xyc_schema)))
    as (db2 & Hrun & Hsame).
  - reflexivity.
  - reflexivity.
  - intros db st. reflexivity.
  - vm_compute. reflexivity.
  - intros c. vm_compute. reflexivity.
  - vm_compute. reflexivity.
  - exists db2. split; [exact Hrun|]. rewrite Hsame. vm_compute. reflexivity.
Defined.

(** X9. The pcid a successful registration returns is in the catalog: the
    writer holds it afterwards and some catalog entry carries it, for a
    catalog whose ids fit 32 bits, whichever way the registration went. *)
Theorem SetupSchema_returns_catalog_id (env : Env) (w : Writer) (s : Schema)
    (srid : N) (db : Db) (p : N) (w' : Writer) (db' : Db) :
  Forall (fun r => fr_pcid r < 2 ^ 32) (pointcloud_formats (db_store db)) ->
  SetupSchema env w s srid db = (inr (p, w'), db') ->
  m_pcid w' = p
  /\ exists r, r ∈ pointcloud_formats (db_store db') /\ fr_pcid r = p.
Proof.
  intros Hids Hrun.
  apply SetupSchema_inr in Hrun as (out & _ & -> & _ & _ & _ & Hcases).
  split; [reflexivity|].
  destruct Hcases
    as [(_ & _ & Hc & Hf)|[(_ & Hfind & Hf)|(_ & _ & _ & Hf)]]; rewrite Hf.
  - by apply count_pcid_nonzero.
  - destruct (find_schema_Some env _ _ _ Hfind) as (i & r & Hi & _ & -> & _).
    assert (Hin : r ∈ pointcloud_formats (db_store db))
      by (by eapply list_elem_of_lookup_2).
    exists r. split; [done|].
    rewrite Forall_forall in Hids. specialize (Hids r Hin).
    unfold u32. by rewrite N.mod_small.
  - eexists. split; [apply elem_of_app; right; left|reflexivity].
Qed.

Lemma SetupSchema_returns_catalog_id_witness :
  exists r,
    r ∈ pointcloud_formats
          (db_store (snd (SetupSchema sample_env (sample_writer xyc_schema 0)
                            icr_schema 4326
                            (sample_db [mkFormatRow 4 4326 "xy"]))))
    /\ fr_pcid r = 5.
Proof.
  destruct (SetupSchema_returns_catalog_id sample_env
              (sample_writer xyc_schema 0) icr_schema 4326
              (sample_db [mkFormatRow 4 4326 "xy"]) 5
              (sample_writer xyc_schema 5)
              (snd (SetupSchema sample_env (sample_writer xyc_schema 0)
                      icr_schema 4326 (sample_db [mkFormatRow 4 4326 "xy"]))))
    as [_ Hrow].
  - repeat constructor.
  - vm_compute. reflexivity.
  - exact Hrow.
Defined.

(** ** writeBuffer: all or nothing, and what the patch holds *)

Lemma length_append (a b : string) :
  String.length (a +:+ b) = (String.length a + String.length b)%nat.
Proof. induction a as [|c a IH]; simpl; [done|]. by rewrite IH. Qed.

Lemma hex_fixed_length (digits : nat) (n : N) :
  String.length (hex_fixed digits n) = digits.
Proof. induction digits as [|k IH]; simpl; [done|]. by rewrite IH. Qed.

Lemma patch_header_length (little_endian : bool) (pcid num_points : N) :
  String.length (patch_header little_endian pcid num_points) = 26%nat.
Proof.
  unfold patch_header.
  destruct little_endian; rewrite !length_append, !hex_fixed_length; done.
Qed.

Lemma PackPointData_Some_length buffer out len size :
  PackPointData buffer = Some (out, len, size) ->
  length out = N.to_nat len.
Proof.
  unfold PackPointData.
  destruct (pack_points _ _ _ _ _ _) as [[out' cur']|] eqn:Hrun; [|discriminate].
  intros [= <- <- <-].
  apply pack_points_Some in Hrun as (Hlen & _). by rewrite length_replicate in Hlen.
Qed.

(** The whole of [WriteBlock], outcome by outcome. *)
Lemma WriteBlock_outcome env w buffer db r db' :
  WriteBlock env w buffer db = (r, db') ->
  match r with
  | inl _ => db' = db
  | inr b =>
      b = true
      /\ exists out len size,
           PackPointData buffer = Some (out, len, size)
           /\ db'
              = log_event
                  (EvStatement
                     (InsertPatch (m_table_name w)
                        (patch_header (env_little_endian env) (u32 (m_pcid w))
                                      (u32 (getNumPoints buffer))
                         +:+ env_binary_to_hex_string env out)))
                  (mkDb (mkStore (pointcloud_formats (db_store db))
                                 (pg_tables (db_store db))
                                 (patches (db_store db)
                                  ++ [(m_table_name w,
                                       patch_header (env_little_endian env)
                                                    (u32 (m_pcid w))
                                                    (u32 (getNumPoints buffer))
                                       +:+ env_binary_to_hex_string env out)]))
                        (db_in_transaction db) (db_log db))
  end.
Proof.
  unfold WriteBlock. run_m.
  destruct (PackPointData buffer) as [[[out len] size]|] eqn:Hpack;
    simpl; [|by intros [= <- <-]].
  destruct (getDimension (getSchema buffer) "BlockID") as [e|d]; simpl;
    [by intros [= <- <-]|].
  pose proof (PackPointData_Some_length _ _ _ _ Hpack) as Hlen.
  assert (Htake : take (N.to_nat len) out = out)
    by (apply take_ge; lia).
  rewrite Htake. unfold patch_header.
  destruct (m_patch_capacity w <? u32 (getNumPoints buffer)); simpl;
    (destruct (env_rejects env db _); intros [= <- <-];
     [reflexivity|split; [reflexivity|by eexists _, _, _]]).
Qed.

(** Why a block write fails once packing is defined: the schema has no
    [BlockID] dimension, or the backend refuses the insert. *)
Lemma getDimension_inl (s : Schema) (name : string) e :
  getDimension s name = inl e -> e = NotFoundError name.
Proof.
  induction s as [|d s IH]; simpl; [by intros [= <-]|].
  destruct (decide (dim_name d = name)); [discriminate|exact IH].
Qed.

Lemma WriteBlock_inl env w buffer db e db' :
  WriteBlock env w buffer db = (inl e, db') ->
  PackPointData buffer <> None ->
  e = NotFoundError "BlockID" \/ e = SociError.
Proof.
  unfold WriteBlock. run_m.
  destruct (PackPointData buffer) as [[[out len] size]|]; [|done].
  intros Hrun _. simpl in Hrun.
  destruct (getDimension (getSchema buffer) "BlockID") as [e'|d] eqn:Hblock;
    simpl in Hrun.
  - injection Hrun as <- _. left. by eapply getDimension_inl.
  - right.
    destruct (m_patch_capacity w <? u32 (getNumPoints buffer));
      simpl in Hrun;
      (destruct (env_rejects env db _); [by injection Hrun as <- _|discriminate]).
Qed.

(** X10. For a buffer that holds its records and whose packed length fits
    32 bits, a buffer write is all or nothing.  It fails only for want of a
    [BlockID] dimension or because the backend refuses the insert, and then
    the database is exactly as before; when it succeeds it has sent one
    statement, an insert into the writer's table, and added one patch to
    that table, leaving the catalog, the table names and the transaction
    as they were. *)
Theorem writeBuffer_all_or_nothing (env : Env) (w : Writer)
    (buffer : PointBuffer) (db : Db) :
  (N.to_nat (pb_numPoints buffer * Schema_getByteSize (pb_schema buffer))
     <= length (pb_data buffer))%nat ->
  pb_numPoints buffer * Schema_getByteSize (packed (pb_schema buffer)) < 2 ^ 32 ->
  forall r db',
    writeBuffer env w buffer db = (r, db') ->
    match r with
    | inl e => db' = db /\ (e = NotFoundError "BlockID" \/ e = SociError)
    | inr n =>
        n = getNumPoints buffer
        /\ exists hex,
             db_log db'
             = db_log db ++ [EvStatement (InsertPatch (m_table_name w) hex)]
             /\ patches (db_store db')
                = patches (db_store db) ++ [(m_table_name w, hex)]
             /\ pointcloud_formats (db_store db')
                = pointcloud_formats (db_store db)
             /\ pg_tables (db_store db') = pg_tables (db_store db)
             /\ db_in_transaction db' = db_in_transaction db
    end.
Proof.
  intros Hdata Hlen r db' Hrun. unfold writeBuffer, bind in Hrun.
  destruct (PackPointData_returns buffer Hdata Hlen) as (packed_data & Hpack).
  destruct (WriteBlock env w buffer db) as [[e|b] db1] eqn:Hblock.
  - injection Hrun as <- <-. split.
    + by apply WriteBlock_outcome in Hblock.
    + apply (WriteBlock_inl _ _ _ _ _ _ Hblock). by rewrite Hpack.
  - apply WriteBlock_outcome in Hblock.
    unfold ret in Hrun. injection Hrun as <- <-.
    destruct Hblock as (_ & out & len & size & _ & ->).
    split; [reflexivity|]. eexists. by repeat split.
Qed.

Lemma writeBuffer_all_or_nothing_witness :
  snd (writeBuffer sample_env (sample_writer icr_schema 1) icr_buffer
         (sample_db []))
  = sample_db [].
Proof.
  destruct (writeBuffer_all_or_nothing sample_env (sample_writer icr_schema 1)
              icr_buffer (sample_db []))
    with (r := @inl Error N (NotFoundError "BlockID"))
         (db' := snd (writeBuffer sample_env (sample_writer icr_schema 1)
                        icr_buffer (sample_db [])))
    as [Hsame _].
  - vm_compute. lia.
  - vm_compute. reflexivity.
  - vm_compute. reflexivity.
  - exact Hsame.
Defined.

(** X11. The patch a successful buffer write inserts is a header of 26
    hexadecimal characters (byte order, pcid, compression 0, point count)
    followed by the hexadecimal text of exactly the bytes [PackPointData]
    produced for the buffer. *)
Theorem writeBuffer_patch_is_packed_data (env : Env) (w : Writer)
    (buffer : PointBuffer) (db : Db) (n : N) (db' : Db) :
  writeBuffer env w buffer db = (inr n, db') ->
  exists out len size header,
    PackPointData buffer = Some (out, len, size)
    /\ length out = N.to_nat len
    /\ header = patch_header (env_little_endian env) (u32 (m_pcid w))
                             (u32 (getNumPoints buffer))
    /\ String.length header = 26%nat
    /\ patches (db_store db')
       = patches (db_store db)
         ++ [(m_table_name w, header +:+ env_binary_to_hex_string env out)].
Proof.
  intros Hrun. unfold writeBuffer, bind in Hrun.
  destruct (WriteBlock env w buffer db) as [[e|b] db1] eqn:Hblock;
    [discriminate|].
  apply WriteBlock_outcome in Hblock as (_ & out & len & size & Hpack & ->).
  unfold ret in Hrun. injection Hrun as <- <-.
  exists out, len, size. eexists. split; [exact Hpack|].
  split; [by eapply PackPointData_Some_length|].
  split; [reflexivity|]. split; [apply patch_header_length|reflexivity].
Qed.

Lemma writeBuffer_patch_is_packed_data_witness :
  exists header,
    String.length header = 26%nat
    /\ patches (db_store (snd (writeBuffer sample_env (tight_writer blk_schema)
                                 blk_buffer (sample_db []))))
       = [("patches", header +:+ "111207000000212207000000")].
Proof.
  destruct (writeBuffer_patch_is_packed_data sample_env
              (tight_writer blk_schema) blk_buffer (sample_db []) 2
              (snd (writeBuffer sample_env (tight_writer blk_schema)
                      blk_buffer (sample_db []))))
    as (out & len & size & header & Hpack & _ & Hheader & Hlen & Hpatches).
  - vm_compute. reflexivity.
  - exists header. split; [exact Hlen|].
    rewrite Hpatches.
    assert (Hout : PackPointData blk_buffer
                   = Some (pb_data blk_buffer, 12, 6))
      by (vm_compute; reflexivity).
    rewrite Hout in Hpack. injection Hpack as <- <- <-.
    vm_compute. reflexivity.
Defined.

(** ** writeBegin and writeEnd: tables, indexes, the writer's fields *)

Section WriterEvents.
Context (env : Env).

Lemma emits_run_user_sql P name w :
  (forall sql, P (EvStatement (RawSql sql))) ->
  emits_only P (run_user_sql env name w).
Proof. intros HP. unfold run_user_sql. emits_auto. apply HP. Qed.

Lemma emits_CheckTableExists P name :
  P (EvStatement SelectTablenames) ->
  emits_only P (CheckTableExists env name).
Proof. intros HP. unfold CheckTableExists. emits_auto. exact HP. Qed.

Lemma emits_SetupSchema P w s srid :
  (forall st, (forall a b, st <> DropTableIfExists a b) ->
              (forall a b c, st <> CreateIndexStmt a b c) ->
              P (EvStatement st)) ->
  emits_only P (SetupSchema env w s srid).
Proof.
  intros HP. unfold SetupSchema. emits_auto; apply HP; discriminate.
Qed.

(** User SQL is sent as the option gives it, and only when the option is
    not empty. *)
Lemma emits_run_user_sql_text (P : SessionEvent -> Prop) name w :
  (forall sql, user_statement env name w sql -> P (EvStatement (RawSql sql))) ->
  emits_only P (run_user_sql env name w).
Proof.
  intros HP. unfold run_user_sql.
  destruct (decide (String.length (getValueOrDefault (m_options w) name "")
                    = 0%nat)) as [Hempty|Hfull]; [apply emits_ret|].
  apply emits_once. apply HP. split; [|reflexivity].
  intros Hnil. apply Hfull. by rewrite Hnil.
Qed.

Lemma emits_SetupSchema_catalog (P : SessionEvent -> Prop) w s srid :
  (forall st, catalog_statement st -> P (EvStatement st)) ->
  emits_only P (SetupSchema env w s srid).
Proof.
  intros HP. unfold SetupSchema. emits_auto; by apply HP.
Qed.

(** A successful [writeBegin], taken apart: the registration it ran and
    the table statement it ended with. *)
Lemma writeBegin_inr w n db w' db' :
  writeBegin env w n db = (inr w', db') ->
  exists p dbS dbS',
    SetupSchema env w (m_pdal_schema w) (m_srid w) dbS = (inr (p, set_m_pcid w p), dbS')
    /\ w' = set_m_pcid w p
    /\ (exists evs, db_log dbS' = db_log db ++ EvBegin :: evs)
    /\ exists created : bool,
         db' = (if created then
                  log_event
                    (EvStatement
                       (CreateTableStmt (m_schema_name w) (m_table_name w)
                                        (m_column_name w) p))
                    (mkDb (apply_stmt env
                             (CreateTableStmt (m_schema_name w) (m_table_name w)
                                              (m_column_name w) p)
                             (db_store dbS'))
                          (db_in_transaction dbS') (db_log dbS'))
                else dbS')
         /\ (m_overwrite w = true -> created = true).
Proof.
  intros Hrun. unfold writeBegin in Hrun.
  apply bind_inr in Hrun as ([] & db0 & Hbegin & Hrun).
  unfold session_begin in Hbegin. injection Hbegin as <-.
  apply bind_inr in Hrun as ([] & db1 & Hpre & Hrun).
  apply bind_inr in Hrun as (have & db2 & Hcheck & Hrun).
  apply bind_inr in Hrun as (have' & db3 & Hdrop & Hrun).
  apply bind_inr in Hrun as ([p w1] & db4 & Hsetup & Hrun).
  apply bind_inr in Hrun as ([] & db5 & Hcreate & Hrun).
  unfold ret in Hrun. injection Hrun as <- <-.
  pose proof Hsetup as Hsetup'.
  apply SetupSchema_inr in Hsetup' as (_ & _ & -> & _).
  assert (Hlog : exists evs, db_log db4 = db_log db ++ EvBegin :: evs).
  { destruct (emits_run_user_sql (fun _ => True) "pre_sql" w (fun _ => I)
                _ _ _ Hpre) as (e1 & Hl1 & _).
    destruct (emits_CheckTableExists (fun _ => True) (m_table_name w) I
                _ _ _ Hcheck) as (e2 & Hl2 & _).
    assert (Hl3 : exists e3, db_log db3 = db_log db2 ++ e3).
    { destruct (m_overwrite w && have).
      - unfold DeleteTable in Hdrop.
        apply bind_inr in Hdrop as ([] & dbd & Hd & Hr).
        unfold ret in Hr. injection Hr as <- <-.
        destruct (emits_once env (fun _ => True) _ I _ _ _ Hd) as (e3 & Hl3 & _).
        by exists e3.
      - unfold ret in Hdrop. injection Hdrop as <- <-. exists [].
        by rewrite app_nil_r. }
    destruct Hl3 as (e3 & Hl3).
    destruct (emits_SetupSchema (fun _ => True) w (m_pdal_schema w) (m_srid w)
                (fun _ _ _ => I) _ _ _ Hsetup) as (e4 & Hl4 & _).
    exists (e1 ++ e2 ++ e3 ++ e4).
    rewrite Hl4, Hl3, Hl2, Hl1. simpl.
    by rewrite <- !app_assoc. }
  exists p, db3, db4. split; [exact Hsetup|]. split; [by destruct w|].
  split; [exact Hlog|].
  assert (Hfields : m_schema_name (set_m_pcid (set_m_pcid w p) p) = m_schema_name w
                    /\ m_table_name (set_m_pcid (set_m_pcid w p) p) = m_table_name w
                    /\ m_column_name (set_m_pcid (set_m_pcid w p) p) = m_column_name w
                    /\ m_pcid (set_m_pcid (set_m_pcid w p) p) = p)
    by done.
  destruct Hfields as (Hs & Ht & Hc & Hp). rewrite Hs, Ht, Hc, Hp in Hcreate.
  destruct have'; simpl in Hcreate.
  - unfold ret in Hcreate. injection Hcreate as <-.
    exists false. split; [reflexivity|].
    intros Hov. exfalso. rewrite Hov in Hdrop. simpl in Hdrop.
    destruct have.
    + unfold DeleteTable in Hdrop.
      apply bind_inr in Hdrop as ([] & dbd & _ & Hr). discriminate.
    + discriminate.
  - unfold CreateTable, once in Hcreate.
    destruct (env_rejects env db4 _); [discriminate|].
    injection Hcreate as <-. exists true. by split.
Qed.
End WriterEvents.



(** X13. Whatever its outcome, [writeBegin] asks of the session only
    this.  The one statement whose text the writer does not assemble is the
    user's [pre_sql]: it is sent only when the option is not empty, and
    verbatim (the text of the file it names or, failing that, the option
    itself), so what it does, a drop of any table included, is the user's.
    Of the statements the writer assembles, a drop names the writer's own
    table under its own schema name and is sent only when overwriting is
    on; none creates an index or inserts a patch; and the session is
    neither committed nor rolled back. *)
Theorem writeBegin_drops_only_own_table (env : Env) (w : Writer) (n : N) :
  emits_only (writeBegin_event env w) (writeBegin env w n).
Proof.
  unfold writeBegin.
  apply emits_bind; [by apply emits_session_begin|intros _].
  apply emits_bind; [by apply emits_run_user_sql_text|intros _].
  apply emits_bind; [by apply emits_CheckTableExists|intros have].
  apply emits_bind.
  { destruct (m_overwrite w) eqn:Hover; simpl; [|apply emits_ret].
    destruct have; [|apply emits_ret].
    unfold DeleteTable. apply emits_bind; [|intros _; apply emits_ret].
    by apply emits_once. }
  intros have'. apply emits_bind.
  { apply emits_SetupSchema_catalog. intros st Hst. by destruct st. }
  intros [p w1]. apply emits_bind; [|intros _; apply emits_ret].
  destruct (negb have'); [|apply emits_ret].
  unfold CreateTable. by apply emits_once.
Qed.

(** A drop written by the user is sent as it is, also with overwriting
    off. *)
Example writeBegin_sends_user_drop :
  db_log (snd (writeBegin sample_env user_sql_writer 0
                 (mkDb (mkStore [] [] []) false [])))
  = [EvBegin;
     EvStatement (RawSql "DROP TABLE other_table");
     EvStatement SelectTablenames;
     EvStatement SelectCountFormats;
     EvStatement (InsertFormat 1 4326 "schema/2/dimensional");
     EvStatement (CreateTableStmt "" "patches" "pa" 1)].
Proof. vm_compute. reflexivity. Qed.

(** X14. The writer never assembles the statement that creates the index.
    The PostGIS flag is false after construction and none of [initialize],
    [writeBegin] and [writeBufferBegin] changes it; with the flag false,
    whatever its outcome, [writeEnd] asks of the session only the user's
    [post_sql], when that option is not empty and verbatim, and the commit.
    An index is created only if the user's own text does so. *)
Theorem writeEnd_never_creates_index (env : Env) :
  (forall schema options, m_have_postgis (Writer_new schema options) = false)
  /\ (forall w w', initialize env w = inr w' ->
                   m_have_postgis w' = m_have_postgis w)
  /\ (forall w n db w' db',
        writeBegin env w n db = (inr w', db') ->
        m_have_postgis w' = m_have_postgis w)
  /\ (forall w buffer db w' db',
        writeBufferBegin w buffer db = (inr w', db') ->
        m_have_postgis w' = m_have_postgis w)
  /\ (forall w n,
        m_have_postgis w = false ->
        emits_only (writeEnd_event env w) (writeEnd env w n)).
Proof.
  split; [reflexivity|]. split; [|split; [|split]].
  - intros w w'. unfold initialize.
    destruct (getValueOrThrow (m_options w) "table"); simpl; [discriminate|].
    destruct (decide _); [discriminate|].
    destruct (env_connect env _); [discriminate|].
    by intros [= <-].
  - intros w n db w' db' Hrun.
    by apply writeBegin_inr in Hrun as (p & _ & _ & _ & -> & _).
  - intros w buffer db w' db'. unfold writeBufferBegin.
    destruct (negb (m_sdo_pc_is_initialized w)); by intros [= <- _].
  - intros w n Hflag. unfold writeEnd. rewrite Hflag, andb_false_r.
    apply emits_bind; [apply emits_ret|intros _].
    apply emits_bind; [by apply emits_run_user_sql_text|intros _].
    by apply emits_session_commit.
Qed.

(** An index written by the user is sent as it is. *)
Example writeEnd_sends_user_index :
  db_log (snd (writeEnd sample_env user_sql_writer 0
                 (mkDb (mkStore [] [] []) true [])))
  = [EvStatement (RawSql "CREATE INDEX other_gix ON other (pa)"); EvCommit].
Proof. vm_compute. reflexivity. Qed.

(** ** The probes *)

(** X15. The two probes never raise: a refusal by the backend is caught
    and answered [false] with the database as it was, an acceptance is
    answered [true]; neither commits or rolls back. *)
Theorem probes_never_raise (env : Env) (db : Db) :
  (exists b db',
      CheckPointCloudExists env db = (inr b, db')
      /\ b = negb (env_rejects env db (RawSql "SELECT PC_Version()"))
      /\ (b = false -> db' = db)
      /\ db_in_transaction db' = db_in_transaction db)
  /\ (exists b db',
        CheckPostGISExists env db = (inr b, db')
        /\ b = negb (env_rejects env db (RawSql "SELECT PostGIS_Version()"))
        /\ (b = false -> db' = db)
        /\ db_in_transaction db' = db_in_transaction db).
Proof.
  split.
  - unfold CheckPointCloudExists, statement_succeeds, once.
    destruct (env_rejects env db _); eexists _, _;
      (split; [reflexivity|]); simpl; by repeat split.
  - unfold CheckPostGISExists, statement_succeeds, once.
    destruct (env_rejects env db _); eexists _, _;
      (split; [reflexivity|]); simpl; by repeat split.
Qed.

(** ** The published defaults *)

Lemma union_default {V} (a d : gmap string V) (k : string) (v v' : V) :
  d !! k = Some v -> default v' ((a ∪ d) !! k) = default v (a !! k).
Proof.
  intros Hd. rewrite lookup_union, Hd. by destruct (a !! k).
Qed.

(** What [initialize] computes, in terms of the option slots. *)
Lemma initialize_value env (w : Writer) :
  initialize env w
  = match opt_strings (m_options w) !! "table" with
    | None => inl (MissingOptionError "table")
    | Some t =>
        let c := default "" (opt_strings (m_options w) !! "connection") in
        if decide (String.length c = 0%nat) then
          inl (SociDriverError
                 "unable to connect to database, no connection string was given!")
        else
          match env_connect env c with
          | Some what =>
              inl (PdalError ("Unable to connect '" +:+ c
                              +:+ "' with error '" +:+ what +:+ "'"))
          | None =>
              inr (mkWriter (m_options w) true (m_pdal_schema w)
                     (default "" (opt_strings (m_options w) !! "schema")) t
                     (default "pa" (opt_strings (m_options w) !! "column"))
                     (env_getCompressionType env
                        (default "dimensional"
                           (opt_strings (m_options w) !! "compression")))
                     (default 400 (opt_uints (m_options w) !! "capacity"))
                     (default 4326 (opt_uints (m_options w) !! "srid"))
                     (default 0 (opt_uints (m_options w) !! "pcid"))
                     (m_have_postgis w) (m_create_index w)
                     (default true (opt_bools (m_options w) !! "overwrite"))
                     (m_sdo_pc_is_initialized w))
          end
    end.
Proof.
  unfold initialize, getValueOrThrow.
  change (option_slot (m_options w) !! "table")
    with (opt_strings (m_options w) !! "table").
  destruct (opt_strings (m_options w) !! "table"); simpl; [|reflexivity].
  rewrite !getValueOrDefault_value. reflexivity.
Qed.

(** X16. Starting from the published defaults hides a missing table: the
    defaults carry an empty table name, so [initialize] on options laid
    over them never fails with [MissingOptionError], and when the caller
    gave no table it goes on with the empty name. *)
Theorem defaults_hide_missing_table (env : Env) (w : Writer) (o : Options) :
  (forall key,
      initialize env (with_options w (over_defaults o))
      <> inl (MissingOptionError key))
  /\ (opt_strings o !! "table" = None ->
      forall w',
        initialize env (with_options w (over_defaults o)) = inr w' ->
        m_table_name w' = "").
Proof.
  rewrite initialize_value. simpl.
  rewrite lookup_union.
  change (opt_strings getDefaultOptions !! "table") with (Some "").
  split.
  - intros key.
    destruct (opt_strings o !! "table"); simpl;
      (destruct (decide _); [discriminate|]);
      (destruct (env_connect env _); discriminate).
  - intros ->. simpl. intros w'.
    destruct (decide _); [discriminate|].
    destruct (env_connect env _); [discriminate|]. by intros [= <-].
Qed.

(** X17. The published defaults are the defaults [initialize] falls back
    on, except for the column: laying options over the published defaults
    changes nothing in what a successful [initialize] computes but the
    column name, which is empty instead of ["pa"] when the caller gave
    none. *)
Theorem defaults_agree_except_column (env : Env) (w : Writer) (o : Options)
    (w1 : Writer) :
  initialize env (with_options w o) = inr w1 ->
  exists w2,
    initialize env (with_options w (over_defaults o)) = inr w2
    /\ m_table_name w2 = m_table_name w1
    /\ m_schema_name w2 = m_schema_name w1
    /\ m_patch_compression_type w2 = m_patch_compression_type w1
    /\ m_overwrite w2 = m_overwrite w1
    /\ m_patch_capacity w2 = m_patch_capacity w1
    /\ m_srid w2 = m_srid w1
    /\ m_pcid w2 = m_pcid w1
    /\ m_column_name w1 = default "pa" (opt_strings o !! "column")
    /\ m_column_name w2 = default "" (opt_strings o !! "column").
Proof.
  rewrite !initialize_value. simpl.
  destruct (opt_strings o !! "table") as [t|] eqn:Ht; [|discriminate].
  rewrite (lookup_union_Some_l _ _ _ _ Ht).
  rewrite (lookup_union_l (opt_strings o) (opt_strings getDefaultOptions)
             "connection") by reflexivity.
  simpl.
  destruct (decide _); [discriminate|].
  destruct (env_connect env _); [discriminate|].
  intros [= <-]. eexists. split; [reflexivity|]. simpl.
  rewrite !(union_default (opt_strings o) _ "schema" "") by reflexivity.
  rewrite !(union_default (opt_strings o) _ "compression" "dimensional")
    by reflexivity.
  rewrite !(union_default (opt_strings o) _ "column" "") by reflexivity.
  rewrite !(union_default (opt_bools o) _ "overwrite" true) by reflexivity.
  rewrite !(union_default (opt_uints o) _ "capacity" 400) by reflexivity.
  rewrite !(union_default (opt_uints o) _ "srid" 4326) by reflexivity.
  rewrite !(union_default (opt_uints o) _ "pcid" 0) by reflexivity.
  by repeat split.
Qed.

Lemma defaults_agree_except_column_witness :
  exists w1 w2,
    initialize sample_env (Writer_new xyc_schema sample_options) = inr w1
    /\ initialize sample_env
         (Writer_new xyc_schema (over_defaults sample_options)) = inr w2
    /\ m_column_name w1 = "pa" /\ m_column_name w2 = "".
Proof.
  destruct (defaults_agree_except_column sample_env
              (Writer_new xyc_schema sample_options) sample_options
              (mkWriter sample_options true xyc_schema "" "patches" "pa"
                        COMPRESSION_DIMENSIONAL 400 4326 0 false true true
                        false))
    as (w2 & Hrun & _ & _ & _ & _ & _ & _ & _ & H1 & H2).
  - vm_compute. reflexivity.
  - eexists _, w2. split; [vm_compute; reflexivity|].
    split; [exact Hrun|]. split; [reflexivity|exact H2].
Defined.

(** ** From writeBegin to the first patch *)

(** Whichever way a registration went, the pcid it returned is, as a
    32-bit value, the id of a catalog entry. *)
Lemma SetupSchema_names_row env w s srid db p w' db' :
  SetupSchema env w s srid db = (inr (p, w'), db') ->
  exists r, r ∈ pointcloud_formats (db_store db')
            /\ u32 (fr_pcid r) = u32 p.
Proof.
  intros Hrun.
  apply SetupSchema_inr in Hrun as (out & _ & _ & _ & _ & _ & Hcases).
  destruct Hcases
    as [(_ & _ & Hc & Hf)|[(_ & Hfind & Hf)|(_ & _ & _ & Hf)]]; rewrite Hf.
  - destruct (count_pcid_nonzero _ _ Hc) as (r & Hin & <-). by exists r.
  - destruct (find_schema_Some env _ _ _ Hfind) as (i & r & Hi & _ & -> & _).
    exists r. split; [by eapply list_elem_of_lookup_2|].
    by rewrite u32_idem.
  - eexists. split; [apply elem_of_app; right; left|reflexivity].
Qed.

(** X18. The patch written right after a successful [writeBegin] is tagged
    with a registered format: the pcid in its header is the 32-bit id of an
    entry the catalog holds at that moment. *)
Theorem first_patch_tagged_with_catalog_id (env : Env) (w : Writer)
    (target : N) (db : Db) (w' : Writer) (db1 : Db)
    (buffer : PointBuffer) (n : N) (db2 : Db) :
  writeBegin env w target db = (inr w', db1) ->
  writeBuffer env w' buffer db1 = (inr n, db2) ->
  exists r out len size,
    r ∈ pointcloud_formats (db_store db2)
    /\ PackPointData buffer = Some (out, len, size)
    /\ patches (db_store db2)
       = patches (db_store db1)
         ++ [(m_table_name w,
              patch_header (env_little_endian env) (u32 (fr_pcid r))
                           (u32 (getNumPoints buffer))
              +:+ env_binary_to_hex_string env out)].
Proof.
  intros Hbegin Hwrite.
  apply writeBegin_inr in Hbegin
    as (p & dbS & dbS' & Hsetup & -> & _ & created & -> & _).
  apply SetupSchema_names_row in Hsetup as (r & Hin & Hid).
  unfold writeBuffer, bind in Hwrite.
  destruct (WriteBlock _ _ _ _) as [[e|b] db3] eqn:Hblock; [discriminate|].
  apply WriteBlock_outcome in Hblock as (_ & out & len & size & Hpack & ->).
  unfold ret in Hwrite. injection Hwrite as <- <-.
  exists r, out, len, size. simpl. rewrite Hid.
  split; [by destruct created|]. split; [exact Hpack|reflexivity].
Qed.

Lemma first_patch_tagged_with_catalog_id_witness :
  exists r,
    r ∈ [mkFormatRow 1 4326 "schema/2/dimensional"]
    /\ patches
         (db_store
            (snd (writeBuffer sample_env (sample_writer blk_schema 1) blk_buffer
                    (snd (writeBegin sample_env (sample_writer blk_schema 0) 0
                            (mkDb (mkStore [] [] []) false []))))))
       = [("patches",
           patch_header true (u32 (fr_pcid r)) 2
           +:+ "111207000000212207000000")].
Proof.
  destruct (first_patch_tagged_with_catalog_id sample_env
              (sample_writer blk_schema 0) 0
              (mkDb (mkStore [] [] []) false [])
              (sample_writer blk_schema 1)
              (snd (writeBegin sample_env (sample_writer blk_schema 0) 0
                      (mkDb (mkStore [] [] []) false [])))
              blk_buffer 2
              (snd (writeBuffer sample_env (sample_writer blk_schema 1)
                      blk_buffer
                      (snd (writeBegin sample_env (sample_writer blk_schema 0) 0
                              (mkDb (mkStore [] [] []) false []))))))
    as (r & out & len & size & Hin & Hpack & Hpatches).
  - vm_compute. reflexivity.
  - vm_compute. reflexivity.
  - exists r. split; [exact Hin|].
    rewrite Hpatches.
    assert (Hout : PackPointData blk_buffer
                   = Some (pb_data blk_buffer, 12, 6))
      by (vm_compute; reflexivity).
    rewrite Hout in Hpack. injection Hpack as <- <- <-.
    reflexivity.
Defined.
